(** * Observer side of the job status pipeline

    A shallow embedding of the web client's job store
    ([webapp/frontend/src/store], the zustand store created by
    [useAppStore]), of its WebSocket hook ([useWebSocket]: the
    [onopen] / [onclose] handlers of [connect] and [handleMessage]) and of
    the status rendering helpers of the AI generation page
    ([getStatusIcon], [getStatusColor]).

    JavaScript objects are finite maps from property names to values, the
    spread [{...a, ...b}] and [Object.assign] are left-biased unions with
    the later object on the left, the [aiJobs] array is a list, and the
    mutable refs of the hook together with the browser's timers, the toasts
    and the console form one explicit state record that every handler
    transforms. *)

From Stdlib Require Import Ascii.
From stdpp Require Import gmap strings list fin_maps pretty.

Local Open Scope string_scope.

(** ** JavaScript values and objects *)

#[local] Set Warnings "-register-all".

(** What [JSON.parse] can deliver.  A missing property ([undefined]) is a
    lookup that returns [None]. *)
Inductive value : Type :=
  | VNull
  | VBool (b : bool)
  | VNum (n : Z)
  | VStr (s : string)
  | VArr (items : list value)
  | VObj (fields : list (string * value)).

Abbreviation obj := (gmap string value).

(** JavaScript truthiness: [null], [false], [0] and [''] are falsy,
    arrays and objects are always truthy. *)
Definition truthy (v : value) : bool :=
  match v with
  | VNull => false
  | VBool b => b
  | VNum n => negb (n =? 0)%Z
  | VStr s => negb (String.eqb s "")
  | VArr _ | VObj _ => true
  end.

(** [o || d] where [o] is a possibly missing property. *)
Definition js_or (o : option value) (d : value) : value :=
  match o with
  | Some v => if truthy v then v else d
  | None => d
  end.

(** Truthiness of an optional string field ([string | undefined]). *)
Definition str_truthy (o : option string) : bool :=
  match o with
  | Some s => negb (String.eqb s "")
  | None => false
  end.

(** [{...base, ...over}]: the properties of [over] win. *)
Definition spread (base over : obj) : obj := over ∪ base.

(** [s.includes(sub)] *)
Definition includes (sub s : string) : bool :=
  match String.index 0 sub s with
  | Some _ => true
  | None => false
  end.

(** ** The store ([useAppStore]) *)

Module Store.

Record AppState : Type := mkAppState {
  auth : obj;
  pipelineStatus : obj;
  aiJobs : list obj;
  aiStatus : option obj;
  wsConnected : bool;
  sidebarOpen : bool;
  theme : string;
}.

(** The state the store is created with, when [localStorage] holds no
    token. *)
Definition initial : AppState :=
  {| auth :=
       {[ "user" := VNull; "token" := VNull;
          "isAuthenticated" := VBool false; "isLoading" := VBool false ]};
     pipelineStatus :=
       {[ "active" := VBool false; "last_run" := VNull;
          "videos_processed" := VNum 0; "status" := VStr "stopped" ]};
     aiJobs := [];
     aiStatus := None;
     wsConnected := false;
     sidebarOpen := true;
     theme := "light" |}.

Definition setPipelineStatus (statusUpdates : obj) (state : AppState) : AppState :=
  {| auth := auth state;
     pipelineStatus := spread (pipelineStatus state) statusUpdates;
     aiJobs := aiJobs state;
     aiStatus := aiStatus state;
     wsConnected := wsConnected state;
     sidebarOpen := sidebarOpen state;
     theme := theme state |}.

Definition addAIJob (job : obj) (state : AppState) : AppState :=
  {| auth := auth state;
     pipelineStatus := pipelineStatus state;
     aiJobs := job :: aiJobs state;
     aiStatus := aiStatus state;
     wsConnected := wsConnected state;
     sidebarOpen := sidebarOpen state;
     theme := theme state |}.

(** [job.job_id === jobId] for a string [jobId]: strict equality holds
    only when the property is a string with the same characters. *)
Definition has_job_id (jobId : string) (job : obj) : bool :=
  match job !! "job_id" with
  | Some (VStr s) => String.eqb s jobId
  | _ => false
  end.

Definition updateAIJob (jobId : string) (updates : obj) (state : AppState) : AppState :=
  {| auth := auth state;
     pipelineStatus := pipelineStatus state;
     aiJobs := map (fun job => if has_job_id jobId job then spread job updates else job)
                   (aiJobs state);
     aiStatus := aiStatus state;
     wsConnected := wsConnected state;
     sidebarOpen := sidebarOpen state;
     theme := theme state |}.

Definition setAIJobs (jobs : list obj) (state : AppState) : AppState :=
  {| auth := auth state;
     pipelineStatus := pipelineStatus state;
     aiJobs := jobs;
     aiStatus := aiStatus state;
     wsConnected := wsConnected state;
     sidebarOpen := sidebarOpen state;
     theme := theme state |}.

Definition setWsConnected (connected : bool) (state : AppState) : AppState :=
  {| auth := auth state;
     pipelineStatus := pipelineStatus state;
     aiJobs := aiJobs state;
     aiStatus := aiStatus state;
     wsConnected := connected;
     sidebarOpen := sidebarOpen state;
     theme := theme state |}.

(** *** The other actions of the store *)

(** [localStorage]: keys and their strings. *)
Abbreviation storage := (gmap string string).

(** The store as [create] builds it: the token is what [localStorage]
    holds under [auth_token], [null] when it holds nothing. *)
Definition create (localStorage : storage) : AppState :=
  {| auth :=
       {[ "user" := VNull;
          "token" := match localStorage !! "auth_token" with
                     | Some t => VStr t
                     | None => VNull
                     end;
          "isAuthenticated" := VBool false; "isLoading" := VBool false ]};
     pipelineStatus := pipelineStatus initial;
     aiJobs := [];
     aiStatus := None;
     wsConnected := false;
     sidebarOpen := true;
     theme := "light" |}.


(** [email.split('@')[0]]: the text before the first [@], all of it when
    there is none. *)
Fixpoint before_at (email : string) : string :=
  match email with
  | EmptyString => EmptyString
  | String c rest =>
      if Ascii.eqb c "@"%char then EmptyString else String c (before_at rest)
  end.





Definition setAIStatus (status : obj) (state : AppState) : AppState :=
  {| auth := auth state;
     pipelineStatus := pipelineStatus state;
     aiJobs := aiJobs state;
     aiStatus := Some status;
     wsConnected := wsConnected state;
     sidebarOpen := sidebarOpen state;
     theme := theme state |}.

Definition setSidebarOpen (open : bool) (state : AppState) : AppState :=
  {| auth := auth state;
     pipelineStatus := pipelineStatus state;
     aiJobs := aiJobs state;
     aiStatus := aiStatus state;
     wsConnected := wsConnected state;
     sidebarOpen := open;
     theme := theme state |}.

Definition setTheme (theme' : string) (state : AppState) : AppState :=
  {| auth := auth state;
     pipelineStatus := pipelineStatus state;
     aiJobs := aiJobs state;
     aiStatus := aiStatus state;
     wsConnected := wsConnected state;
     sidebarOpen := sidebarOpen state;
     theme := theme' |}.

(** What [persist] writes: [partialize] keeps the token and the user of
    [auth], the theme and the sidebar flag. *)
Record Persisted : Type := mkPersisted {
  persisted_token : option value;
  persisted_user : option value;
  persisted_theme : string;
  persisted_sidebarOpen : bool;
}.

Definition partialize (state : AppState) : Persisted :=
  {| persisted_token := auth state !! "token";
     persisted_user := auth state !! "user";
     persisted_theme := theme state;
     persisted_sidebarOpen := sidebarOpen state |}.

End Store.

(** ** The WebSocket hook ([useWebSocket]) *)

Definition RECONNECT_INTERVAL : Z := 5000.
Definition MAX_RECONNECT_ATTEMPTS : nat := 10.

Record WebSocketMessage : Type := mkMessage {
  type : string;
  data : option obj;
  job_id : option string;
  status : option string;
  message : option string;
  result : option obj;
}.

Inductive toast_kind : Type := ToastError | ToastSuccess | ToastPlain.

(** [console.log], [console.warn] and [console.error] *)
Inductive console_level : Type := ConsoleLog | ConsoleWarn | ConsoleError.

(** [WebSocket.readyState] *)
Inductive ReadyState : Type := CONNECTING | OPEN | CLOSING | CLOSED.

(** The state the hook's handlers read and write: the store, the ref [ws]
    (the ready state of the current socket, [None] for [null]), the two
    refs [reconnectAttempts] and [reconnectTimeout], the pending timers of
    the window (handle and delay in milliseconds; [setTimeout] hands out
    positive handles in increasing order), the number of sockets created
    by [connect], the frames sent, the toasts shown and the console lines
    written. *)
Record Hook : Type := mkHook {
  app : Store.AppState;
  reconnectAttempts : nat;
  reconnectTimeout : option positive;
  timers : list (positive * Z);
  next_timer : positive;
  sockets : nat;
  ws : option ReadyState;
  sent : list string;
  toasts : list (toast_kind * string);
  console : list (console_level * string);
}.

Definition initial_hook : Hook :=
  {| app := Store.initial; reconnectAttempts := 0; reconnectTimeout := None;
     timers := []; next_timer := 1%positive; sockets := 0;
     ws := None; sent := [];
     toasts := []; console := [] |}.

Definition with_app (f : Store.AppState -> Store.AppState) (h : Hook) : Hook :=
  {| app := f (app h); reconnectAttempts := reconnectAttempts h;
     reconnectTimeout := reconnectTimeout h; timers := timers h;
     next_timer := next_timer h; sockets := sockets h;
     ws := ws h; sent := sent h;
     toasts := toasts h; console := console h |}.

Definition toast (k : toast_kind) (text : string) (h : Hook) : Hook :=
  {| app := app h; reconnectAttempts := reconnectAttempts h;
     reconnectTimeout := reconnectTimeout h; timers := timers h;
     next_timer := next_timer h; sockets := sockets h;
     ws := ws h; sent := sent h;
     toasts := (k, text) :: toasts h; console := console h |}.

Definition console_write (level : console_level) (line : string) (h : Hook) : Hook :=
  {| app := app h; reconnectAttempts := reconnectAttempts h;
     reconnectTimeout := reconnectTimeout h; timers := timers h;
     next_timer := next_timer h; sockets := sockets h;
     ws := ws h; sent := sent h;
     toasts := toasts h; console := (level, line) :: console h |}.

Definition console_log : string → Hook → Hook := console_write ConsoleLog.
Definition console_warn : string → Hook → Hook := console_write ConsoleWarn.
Definition console_error : string → Hook → Hook := console_write ConsoleError.

(** [clearTimeout(handle)]: a handle that is not pending is ignored. *)
Definition clearTimeout (handle : positive) (h : Hook) : Hook :=
  {| app := app h; reconnectAttempts := reconnectAttempts h;
     reconnectTimeout := reconnectTimeout h;
     timers := filter (fun t => t.1 ≠ handle) (timers h);
     next_timer := next_timer h; sockets := sockets h;
     ws := ws h; sent := sent h;
     toasts := toasts h; console := console h |}.

(** [connect()]: a new socket replaces [ws.current]. *)
Definition connect (h : Hook) : Hook :=
  {| app := app h; reconnectAttempts := reconnectAttempts h;
     reconnectTimeout := reconnectTimeout h; timers := timers h;
     next_timer := next_timer h; sockets := S (sockets h);
     ws := Some CONNECTING; sent := sent h;
     toasts := toasts h; console := console h |}.

(** [ws.current.onopen] *)
Definition onopen (h : Hook) : Hook :=
  let h1 := with_app (Store.setWsConnected true) (console_log "WebSocket connected" h) in
  let h2 :=
    {| app := app h1; reconnectAttempts := 0;
       reconnectTimeout := reconnectTimeout h1; timers := timers h1;
       next_timer := next_timer h1; sockets := sockets h1;
       ws := ws h1; sent := sent h1;
       toasts := toasts h1; console := console h1 |} in
  match reconnectTimeout h2 with
  | Some handle =>
      let h3 := clearTimeout handle h2 in
      {| app := app h3; reconnectAttempts := reconnectAttempts h3;
         reconnectTimeout := None; timers := timers h3;
         next_timer := next_timer h3; sockets := sockets h3;
         ws := ws h3; sent := sent h3;
         toasts := toasts h3; console := console h3 |}
  | None => h2
  end.

(** [ws.current.onclose] *)
Definition onclose (h : Hook) : Hook :=
  let h1 := with_app (Store.setWsConnected false) (console_log "WebSocket disconnected" h) in
  if decide (reconnectAttempts h1 < MAX_RECONNECT_ATTEMPTS) then
    let attempts := reconnectAttempts h1 + 1 in
    let h2 :=
      console_log ("Attempting to reconnect (" +:+ pretty attempts +:+ "/"
                   +:+ pretty MAX_RECONNECT_ATTEMPTS +:+ ")...") h1 in
    {| app := app h2; reconnectAttempts := attempts;
       reconnectTimeout := Some (next_timer h2);
       timers := (next_timer h2, RECONNECT_INTERVAL) :: timers h2;
       next_timer := Pos.succ (next_timer h2); sockets := sockets h2;
       ws := ws h2; sent := sent h2;
       toasts := toasts h2; console := console h2 |}
  else
    toast ToastError "WebSocket connection failed. Please refresh the page." h1.

(** The callback of the reconnect timer: the timer leaves the pending
    list and [connect] runs.  A handle that is not pending never fires. *)
Definition timer_fires (handle : positive) (h : Hook) : Hook :=
  if decide (handle ∈ (timers h).*1) then connect (clearTimeout handle h) else h.

(** *** [handleMessage] *)

(** The toast of the [log] case, chosen by the words of the text. *)
Definition log_toast_kind (text : string) : toast_kind :=
  if includes "error" text || includes "failed" text then ToastError
  else if includes "success" text || includes "completed" text then ToastSuccess
  else ToastPlain.

(** The toast of the [ai_job] case, chosen by the status of the message;
    the statuses in between get none. *)
Definition status_toast_kind (st : string) : option toast_kind :=
  if String.eqb st "completed" then Some ToastSuccess
  else if String.eqb st "failed" || String.eqb st "error" then Some ToastError
  else if String.eqb st "starting" then Some ToastPlain
  else None.

(** [message.result?.key] *)
Definition result_field (res : option obj) (key : string) : option value :=
  res ≫= (fun r => r !! key).

(** The object literal [newJob]; [now] is [new Date().toISOString()]. *)
Definition newJob (now : string) (id : string) (res : option obj) : obj :=
  {[ "job_id" := js_or (Some (VStr id)) (VStr "");
     "status" := VStr "starting";
     "base_prompt" := js_or (result_field res "prompt") (VStr "");
     "prompt" := js_or (result_field res "prompt") (VStr "");
     "orientation" := js_or (result_field res "orientation") (VStr "landscape");
     "duration" := js_or (result_field res "duration") (VStr "10s");
     "style" := js_or (result_field res "style") (VStr "cinematic");
     "camera_view" := js_or (result_field res "camera_view") (VStr "wide");
     "background" := js_or (result_field res "background") (VStr "natural");
     "started_at" := VStr now ]}.

(** [updates]: [{status: message.status}] with the result payload, when
    there is one, assigned over it. *)
Definition job_updates (st : string) (res : option obj) : obj :=
  let updates : obj := {[ "status" := VStr st ]} in
  match res with
  | Some r => spread updates r
  | None => updates
  end.

(** [!existingJob]: the result of [find] is a job or [undefined]. *)
Definition is_undefined {A : Type} (o : option A) : bool :=
  match o with
  | None => true
  | Some _ => false
  end.

(** The [ai_job] case once [job_id] and [status] are known to be truthy. *)
Definition handle_ai_job (now id st : string) (m : WebSocketMessage) (h : Hook) : Hook :=
  let existingJob := find (Store.has_job_id id) (Store.aiJobs (app h)) in
  let h1 :=
    if is_undefined existingJob && String.eqb st "starting"
    then with_app (Store.addAIJob (newJob now id (result m))) h
    else with_app (Store.updateAIJob id (job_updates st (result m))) h in
  match message m with
  | Some text =>
      if str_truthy (Some text) then
        match status_toast_kind st with
        | Some k => toast k text h1
        | None => h1
        end
      else h1
  | None => h1
  end.

Definition handleMessage (now : string) (m : WebSocketMessage) (h : Hook) : Hook :=
  if String.eqb (type m) "status" then
    match data m with
    | Some d => with_app (Store.setPipelineStatus d) h
    | None => h
    end
  else if String.eqb (type m) "log" then
    match message m with
    | Some text =>
        if str_truthy (Some text) then toast (log_toast_kind text) text h else h
    | None => h
    end
  else if String.eqb (type m) "ai_job" then
    match job_id m, status m with
    | Some id, Some st =>
        if str_truthy (Some id) && str_truthy (Some st)
        then handle_ai_job now id st m h
        else h
    | _, _ => h
    end
  else console_log "Unknown message type:" h.

(** *** [onmessage], [disconnect] and [sendMessage] *)

(** [JSON.parse] and [JSON.stringify] are the platform's.  The parser
    returns [None] where [JSON.parse] throws its [SyntaxError] and the
    message as the code types it otherwise; the printer returns [None]
    where [JSON.stringify] throws.  Outgoing messages are of type [any]. *)
Section Platform.

Variable JSON_parse : string → option WebSocketMessage.
Variable any : Type.
Variable JSON_stringify : any → option string.

(** [ws.current.onmessage]: the [catch] writes one console line. *)
Definition onmessage (now data : string) (h : Hook) : Hook :=
  match JSON_parse data with
  | Some m => handleMessage now m h
  | None => console_error "Error parsing WebSocket message:" h
  end.

(** [ws.current.send(frame)] on an open socket. *)
Definition send (frame : string) (h : Hook) : Hook :=
  {| app := app h; reconnectAttempts := reconnectAttempts h;
     reconnectTimeout := reconnectTimeout h; timers := timers h;
     next_timer := next_timer h; sockets := sockets h;
     ws := ws h; sent := frame :: sent h;
     toasts := toasts h; console := console h |}.

(** [sendMessage]; [None] is an exception that leaves the function. *)
Definition sendMessage (msg : any) (h : Hook) : option Hook :=
  match ws h with
  | Some OPEN =>
      match JSON_stringify msg with
      | Some frame => Some (send frame h)
      | None => None
      end
  | _ => Some (console_warn "WebSocket is not connected" h)
  end.

End Platform.

(** [disconnect]: [ws.current.close()] leaves the socket closing, then
    the ref is cleared. *)
Definition disconnect (h : Hook) : Hook :=
  let h1 :=
    match reconnectTimeout h with
    | Some handle =>
        let h0 := clearTimeout handle h in
        {| app := app h0; reconnectAttempts := reconnectAttempts h0;
           reconnectTimeout := None; timers := timers h0;
           next_timer := next_timer h0; sockets := sockets h0;
           ws := ws h0; sent := sent h0;
           toasts := toasts h0; console := console h0 |}
    | None => h
    end in
  let h2 :=
    match ws h1 with
    | Some _ =>
        {| app := app h1; reconnectAttempts := reconnectAttempts h1;
           reconnectTimeout := reconnectTimeout h1; timers := timers h1;
           next_timer := next_timer h1; sockets := sockets h1;
           ws := None; sent := sent h1;
           toasts := toasts h1; console := console h1 |}
    | None => h1
    end in
  with_app (Store.setWsConnected false) h2.

(** The browser moves the current socket to a ready state before it calls
    the handler of the event. *)
Definition socket_state (s : ReadyState) (h : Hook) : Hook :=
  {| app := app h; reconnectAttempts := reconnectAttempts h;
     reconnectTimeout := reconnectTimeout h; timers := timers h;
     next_timer := next_timer h; sockets := sockets h;
     ws := (fun _ => s) <$> ws h; sent := sent h;
     toasts := toasts h; console := console h |}.

(** The events of the hook and the state after a sequence of them, oldest
    first; a message arrives parsed, with the time of its arrival. *)
Inductive event : Type :=
  | Open
  | Close
  | TimerFires (handle : positive)
  | Message (now : string) (m : WebSocketMessage).

Definition step (h : Hook) (e : event) : Hook :=
  match e with
  | Open => onopen (socket_state OPEN h)
  | Close => onclose (socket_state CLOSED h)
  | TimerFires handle => timer_fires handle h
  | Message now m => handleMessage now m h
  end.

Definition run (evs : list event) (h : Hook) : Hook := foldl step h evs.

(** ** Status rendering on the AI generation page *)

(** An icon element: the component and its [className]. *)
Record icon : Type := mkIcon { component : string; className : string }.

Definition getStatusIcon (st : string) : icon :=
  if String.eqb st "completed" then mkIcon "CheckCircle" "w-5 h-5 text-green-500"
  else if String.eqb st "failed" || String.eqb st "error"
       then mkIcon "XCircle" "w-5 h-5 text-red-500"
  else if String.eqb st "generating"
       then mkIcon "RefreshCw" "w-5 h-5 text-blue-500 animate-spin"
  else mkIcon "Clock" "w-5 h-5 text-yellow-500".

Definition getStatusColor (st : string) : string :=
  if String.eqb st "completed" then "bg-green-100 text-green-800"
  else if String.eqb st "failed" || String.eqb st "error" then "bg-red-100 text-red-800"
  else if String.eqb st "generating" then "bg-blue-100 text-blue-800"
  else "bg-yellow-100 text-yellow-800".

(** ** The lifecycle of a GenerationJob as the specification words it *)

(** The edges of the GenerationJob machine: the success path
    starting, generating, processing, rendering, completed, and from each
    of the three working states an edge to failed and one to error. *)
Definition generation_edge (from to : string) : bool :=
  match from, to with
  | "starting", "generating" => true
  | "generating", "processing" => true
  | "processing", "rendering" => true
  | "rendering", "completed" => true
  | "generating", "failed" | "processing", "failed" | "rendering", "failed" => true
  | "generating", "error" | "processing", "error" | "rendering", "error" => true
  | _, _ => false
  end.

Definition terminal_status (st : string) : bool :=
  String.eqb st "completed" || String.eqb st "failed" || String.eqb st "error".

(** The [status] property of a job when it is a string. *)
Definition status_of (job : obj) : option string :=
  match job !! "status" with
  | Some (VStr s) => Some s
  | _ => None
  end.

Definition job_statuses (state : Store.AppState) : list (option string) :=
  map status_of (Store.aiJobs state).

Definition job_ids (jobs : list obj) : list (option value) :=
  map (fun job : obj => job !! "job_id") jobs.

(** The toasts the [ai_job] case shows for a status and a text. *)
Definition job_toasts (st : string) (text : option string) : list (toast_kind * string) :=
  match text with
  | Some t =>
      if str_truthy (Some t) then
        match status_toast_kind st with
        | Some k => [(k, t)]
        | None => []
        end
      else []
  | None => []
  end.

(** A job message without text or payload, and one with a payload. *)
Definition job_message (id st : string) : WebSocketMessage :=
  mkMessage "ai_job" None (Some id) (Some st) None None.

Definition job_message_with (id st : string) (res : obj) : WebSocketMessage :=
  mkMessage "ai_job" None (Some id) (Some st) None (Some res).

(** A store that received the start and the completion of one job. *)
Definition one_completed_job : Hook :=
  run [Message "2025-01-01T00:00:00.000Z" (job_message "job-1" "starting");
       Message "2025-01-01T00:05:00.000Z" (job_message "job-1" "completed")]
      initial_hook.

(** ** Notions the statements use *)

(** What the case does to the store: one job added in front, or one call
    of [updateAIJob]. *)
Definition ai_job_store (now id st : string) (res : option obj)
    (state : Store.AppState) : Store.AppState :=
  if is_undefined (find (Store.has_job_id id) (Store.aiJobs state))
     && String.eqb st "starting"
  then Store.addAIJob (newJob now id res) state
  else Store.updateAIJob id (job_updates st res) state.

(** The number of timers set between two states of the hook. *)
Definition scheduled (h h' : Hook) : nat :=
  Pos.to_nat (next_timer h') - Pos.to_nat (next_timer h).

(** The socket closes, the reconnect timer runs out and [connect] opens
    the next socket. *)
Definition failed_cycle (h : Hook) : Hook :=
  step (step h Close) (TimerFires (next_timer h)).

(** The same, and the next socket opens. *)
Definition reconnect_cycle (h : Hook) : Hook := step (failed_cycle h) Open.

(** The delay of the timer set last. *)
Definition last_wait (h : Hook) : option Z :=
  match timers h with
  | (_, delay) :: _ => Some delay
  | [] => None
  end.

Ltac handler_cases :=
  repeat match goal with
    | |- context [match ?x with _ => _ end] => destruct x
    end.

(** Timers set plus attempts left: no event except [Open] raises it. *)
Definition budget (h : Hook) : nat :=
  Pos.to_nat (next_timer h) + (MAX_RECONNECT_ATTEMPTS - reconnectAttempts h).

(** The result payload of the message has no [job_id] of its own, or the
    one of the message. *)
Definition result_keeps_id (m : WebSocketMessage) : bool :=
  match result_field (result m) "job_id" with
  | None => true
  | Some (VStr s) => bool_decide (job_id m = Some s)
  | Some _ => false
  end.

Definition keeps_id (e : event) : bool :=
  match e with
  | Message _ m => result_keeps_id m
  | _ => true
  end.

(** What an observer is shown for a status: icon, badge colour and kind
    of notification. *)
Definition indication (st : string) : icon * string * option toast_kind :=
  (getStatusIcon st, getStatusColor st, status_toast_kind st).

(** The job message of a status with a text. *)
Definition status_message (id st text : string) (res : option obj) : WebSocketMessage :=
  mkMessage "ai_job" None (Some id) (Some st) (Some text) res.

(** A parser for the examples: it knows the frames of a table and
    rejects every other text. *)
Definition parse_table (table : list (string * WebSocketMessage)) (data : string) :
    option WebSocketMessage :=
  snd <$> find (fun entry => String.eqb entry.1 data) table.

(** A client whose first socket closed, whose reconnect timer ran out and
    whose second socket opened. *)
Definition reconnected : Hook := run [Close; TimerFires 1; Open] initial_hook.

(** ** The components around the store and the hook *)

(** Truthiness of a property that may be missing. *)
Definition truthy_opt (o : option value) : bool :=
  match o with
  | Some v => truthy v
  | None => false
  end.

Module App.


End App.

(** [String(v)], as a template literal converts what it is given: a
    property that is missing reads [undefined], an array joins its
    elements with commas and leaves [null] elements empty.  Numbers are
    the integers of [value], printed in decimal as JavaScript prints the
    integers below 10^21. *)
Fixpoint to_String (v : value) : string :=
  match v with
  | VNull => "null"
  | VBool true => "true"
  | VBool false => "false"
  | VNum n => pretty n
  | VStr s => s
  | VArr items =>
      (fix join (l : list value) : string :=
         match l with
         | [] => ""
         | x :: rest =>
             (match x with VNull => "" | _ => to_String x end)
             +:+ match rest with [] => "" | _ => "," +:+ join rest end
         end) items
  | VObj _ => "[object Object]"
  end.

Definition template (o : option value) : string :=
  match o with
  | Some v => to_String v
  | None => "undefined"
  end.

(** What a [try] block can be left with: a [TypeError], another [Error],
    or a value that is no [Error]. *)
Inductive thrown : Type :=
  | TypeError (msg : string)
  | OtherError (msg : string)
  | NotAnError.

(** How a [fetch] and the [response.json()] after it end.  The body is
    the parsed object; a body that is [null] makes the first property
    access throw and is a [BodyThrows], any other body that is no object
    has none of the properties read and behaves as the empty object. *)
Inductive http_body : Type :=
  | Body (result : obj)
  | BodyThrows (e : thrown).

Inductive fetch_outcome : Type :=
  | FetchRejects (e : thrown)
  | Responds (ok : bool) (status : Z) (body : http_body).

(** A toast with the text it is given and its duration in milliseconds. *)
Definition timed_toast : Type := toast_kind * value * Z.

Module AIGeneration.

(** [aiJobs.slice(0, 10)]: the jobs the page lists. *)
Definition displayed_jobs (aiJobs : list obj) : list obj := take 10 aiJobs.

(** The state [onSubmit] works on: the flag of the page, the toasts, the
    number of calls of the form's [reset] and the console. *)
Record Page : Type := mkPage {
  isGenerating : bool;
  page_toasts : list timed_toast;
  resets : nat;
  page_console : list (console_level * string);
}.

(** [onSubmit] up to the [await] of its [fetch]. *)
Definition onSubmit_begin (page : Page) : Page :=
  {| isGenerating := true; page_toasts := page_toasts page;
     resets := resets page; page_console := page_console page |}.

(** The [try] block of [onSubmit] from the answer of the [fetch] on: the
    toast to show and whether the form is reset, or what is thrown. *)
Definition onSubmit_try (outcome : fetch_outcome) : thrown + (timed_toast * bool) :=
  match outcome with
  | FetchRejects e => inl e
  | Responds ok status body =>
      if negb ok && (status =? 401)%Z then
        inl (OtherError "Authentication failed. Please check your API key.")
      else if negb ok && (status =? 429)%Z then
        inl (OtherError "Too many requests. Please wait a moment and try again.")
      else if negb ok && (500 <=? status)%Z then
        inl (OtherError "Server error. Please try again later.")
      else
        match body with
        | BodyThrows e => inl e
        | Body result =>
            if truthy_opt (result !! "success") then
              inr ((ToastSuccess,
                    VStr ("AI generation started! Job ID: "
                          +:+ template (result !! "job_id")),
                    5000%Z), true)
            else
              inr ((ToastError,
                    js_or (result !! "message") (VStr "Failed to start generation"),
                    7000%Z), false)
        end
  end.

(** The message the [catch] block of [onSubmit] shows. *)
Definition errorMessage (e : thrown) : string :=
  match e with
  | TypeError msg =>
      if String.eqb msg "Failed to fetch"
      then "Cannot connect to server. Please check your internet connection."
      else msg
  | OtherError msg => msg
  | NotAnError => "Network error while starting AI generation. Please try again."
  end.

(** [onSubmit] after the [await]: [try], [catch] and [finally]. *)
Definition onSubmit_settle (outcome : fetch_outcome) (page : Page) : Page :=
  match onSubmit_try outcome with
  | inr (t, reset) =>
      {| isGenerating := false; page_toasts := t :: page_toasts page;
         resets := if reset then S (resets page) else resets page;
         page_console := page_console page |}
  | inl e =>
      {| isGenerating := false;
         page_toasts := (ToastError, VStr (errorMessage e), 7000%Z) :: page_toasts page;
         resets := resets page;
         page_console := (ConsoleError, "Generation error:") :: page_console page |}
  end.

End AIGeneration.

Module VideoVersionGrid.

Definition getStatusIcon (st : string) : icon :=
  if String.eqb st "completed" then mkIcon "CheckCircle" "w-4 h-4 text-green-500"
  else if String.eqb st "failed" then mkIcon "XCircle" "w-4 h-4 text-red-500"
  else if String.eqb st "generating"
       then mkIcon "RefreshCw" "w-4 h-4 text-blue-500 animate-spin"
  else mkIcon "RefreshCw" "w-4 h-4 text-gray-400".

Definition getStatusColor (st : string) : string :=
  if String.eqb st "completed" then "bg-green-100 text-green-800"
  else if String.eqb st "failed" then "bg-red-100 text-red-800"
  else if String.eqb st "generating" then "bg-blue-100 text-blue-800"
  else "bg-gray-100 text-gray-800".

(** The state [handleUploadToYouTube] works on: [uploadingStates], the
    toasts, the calls of [onUploadSuccess] (index and URL) and the
    console. *)
Record Grid : Type := mkGrid {
  uploadingStates : gmap nat bool;
  grid_toasts : list timed_toast;
  upload_calls : list (nat * value);
  grid_console : list (console_level * string);
}.

(** [handleUploadToYouTube] up to the [await] of its [fetch]. *)
Definition upload_begin (versionIndex : nat) (grid : Grid) : Grid :=
  {| uploadingStates := <[versionIndex := true]> (uploadingStates grid);
     grid_toasts := grid_toasts grid; upload_calls := upload_calls grid;
     grid_console := grid_console grid |}.

(** [handleUploadToYouTube] after the [await]; [has_callback] says whether
    the grid was given an [onUploadSuccess], whose calls are recorded and
    which is taken to return.  The response is read whatever its status
    is. *)
Definition upload_settle (versionIndex : nat) (has_callback : bool)
    (outcome : fetch_outcome) (grid : Grid) : Grid :=
  let settled :=
    match outcome with
    | Responds _ _ (Body result) =>
        if truthy_opt (result !! "success") then
          {| uploadingStates := uploadingStates grid;
             grid_toasts :=
               (ToastSuccess, VStr "Successfully uploaded to YouTube!", 5000%Z)
                 :: grid_toasts grid;
             upload_calls :=
               match result !! "youtube_url" with
               | Some url =>
                   if truthy url && has_callback
                   then (versionIndex, url) :: upload_calls grid
                   else upload_calls grid
               | None => upload_calls grid
               end;
             grid_console := grid_console grid |}
        else
          {| uploadingStates := uploadingStates grid;
             grid_toasts :=
               (ToastError,
                js_or (result !! "message") (VStr "Failed to upload to YouTube"),
                7000%Z) :: grid_toasts grid;
             upload_calls := upload_calls grid;
             grid_console := grid_console grid |}
    | Responds _ _ (BodyThrows _) | FetchRejects _ =>
        {| uploadingStates := uploadingStates grid;
           grid_toasts :=
             (ToastError, VStr "Network error while uploading to YouTube", 7000%Z)
               :: grid_toasts grid;
           upload_calls := upload_calls grid;
           grid_console := (ConsoleError, "YouTube upload error:") :: grid_console grid |}
    end in
  {| uploadingStates := <[versionIndex := false]> (uploadingStates settled);
     grid_toasts := grid_toasts settled; upload_calls := upload_calls settled;
     grid_console := grid_console settled |}.

End VideoVersionGrid.

Module Login.


End Login.

Module VideoManager.

(** The state of the page: the videos, the loading flag and the error. *)
Record View : Type := mkView {
  videos : list obj;
  loading : bool;
  error : option string;
}.

Definition initial : View := {| videos := []; loading := true; error := None |}.




End VideoManager.

(** The colour word a class string names, if it names one of these. *)
Definition colour_of (classes : string) : option string :=
  find (fun colour => includes colour classes)
       ["green"; "red"; "blue"; "yellow"; "gray"].



(** [sub] occurs in [s]. *)
Definition contains (sub s : string) : Prop :=
  ∃ pre post : string, s = pre +:+ sub +:+ post.


(** * Properties *)

(** ** Objects *)

Lemma lookup_spread (base over : obj) (key : string) :
  spread base over !! key =
    match over !! key with
    | Some v => Some v
    | None => base !! key
    end.
Proof.
  unfold spread. rewrite lookup_union.
  destruct (over !! key), (base !! key); reflexivity.
Qed.

Lemma str_truthy_Some (s : string) : s ≠ "" → str_truthy (Some s) = true.
Proof.
  intros Hs. unfold str_truthy.
  destruct (String.eqb_spec s ""); [contradiction | reflexivity].
Qed.

Lemma has_job_id_true (jobId : string) (job : obj) :
  Store.has_job_id jobId job = true ↔ job !! "job_id" = Some (VStr jobId).
Proof.
  unfold Store.has_job_id. split.
  - destruct (job !! "job_id") as [[| | |s| |]|]; try discriminate.
    intros ->%String.eqb_eq. reflexivity.
  - intros ->. apply String.eqb_refl.
Qed.

(** ** The store *)

Lemma updateAIJob_lookup (jobId : string) (updates : obj) (state : Store.AppState)
    (i : nat) (job : obj) :
  Store.aiJobs state !! i = Some job →
  Store.aiJobs (Store.updateAIJob jobId updates state) !! i =
    Some (if Store.has_job_id jobId job then spread job updates else job).
Proof.
  intros Hi. unfold Store.updateAIJob. simpl.
  change (map ?f ?l) with (f <$> l).
  rewrite list_lookup_fmap, Hi. reflexivity.
Qed.

Lemma updateAIJob_length (jobId : string) (updates : obj) (state : Store.AppState) :
  length (Store.aiJobs (Store.updateAIJob jobId updates state)) =
  length (Store.aiJobs state).
Proof. unfold Store.updateAIJob. simpl. apply length_map. Qed.

(** Without a job of that id the update changes nothing. *)
Lemma updateAIJob_absent (jobId : string) (updates : obj) (state : Store.AppState) :
  find (Store.has_job_id jobId) (Store.aiJobs state) = None →
  Store.aiJobs (Store.updateAIJob jobId updates state) = Store.aiJobs state.
Proof.
  unfold Store.updateAIJob. simpl.
  induction (Store.aiJobs state) as [|job jobs IH]; simpl; [reflexivity|].
  destruct (Store.has_job_id jobId job); [discriminate|].
  intros Hfind. rewrite IH by exact Hfind. reflexivity.
Qed.

(** C1 (as amended).  The store validates no transition: a call of
    [updateAIJob] that carries a status gives that status to every job
    whose [job_id] matches, whatever the job's current status, and leaves
    every other job as it was. *)
Theorem updateAIJob_status_unconditional (state : Store.AppState) (jobId : string)
    (updates : obj) (requested : value) (i : nat) (job : obj) :
  updates !! "status" = Some requested →
  Store.aiJobs state !! i = Some job →
  ∃ job', Store.aiJobs (Store.updateAIJob jobId updates state) !! i = Some job' ∧
          job' !! "status" =
            (if Store.has_job_id jobId job then Some requested else job !! "status") ∧
          (Store.has_job_id jobId job = false → job' = job).
Proof.
  intros Hreq Hi.
  eexists. split; [apply updateAIJob_lookup, Hi|].
  destruct (Store.has_job_id jobId job).
  - split; [|discriminate]. rewrite lookup_spread, Hreq. reflexivity.
  - split; reflexivity.
Qed.

Lemma updateAIJob_status_unconditional_witness :
  ∃ job', Store.aiJobs (Store.updateAIJob "job-1" {[ "status" := VStr "starting" ]}
                          (app one_completed_job)) !! 0%nat = Some job' ∧
          job' !! "status" = Some (VStr "starting").
Proof.
  destruct (updateAIJob_status_unconditional (app one_completed_job) "job-1"
              {[ "status" := VStr "starting" ]} (VStr "starting") 0
              (spread (newJob "2025-01-01T00:00:00.000Z" "job-1" None)
                      {[ "status" := VStr "completed" ]}))
    as (job' & Hjob' & Hstatus & _); [reflexivity | reflexivity |].
  exists job'. split; [exact Hjob' | exact Hstatus].
Defined.

(** C1, counterexample.  A completed job that is sent [starting]: the edge
    is none of the machine's, and the store moves the job out of its
    terminal state all the same. *)
Lemma updateAIJob_leaves_terminal_state :
  let state := app one_completed_job in
  let state' := Store.updateAIJob "job-1" {[ "status" := VStr "starting" ]} state in
  generation_edge "completed" "starting" = false ∧
  job_statuses state = [Some "completed"] ∧
  job_statuses state' = [Some "starting"].
Proof. vm_compute. repeat split. Qed.

(** ** [handleMessage], the [ai_job] case *)

Lemma handleMessage_ai_job (now : string) (m : WebSocketMessage) (h : Hook)
    (id st : string) :
  type m = "ai_job" → job_id m = Some id → id ≠ "" →
  status m = Some st → st ≠ "" →
  handleMessage now m h = handle_ai_job now id st m h.
Proof.
  intros Htype Hid Hid' Hst Hst'. unfold handleMessage.
  rewrite Htype, Hid, Hst.
  rewrite (str_truthy_Some id Hid'), (str_truthy_Some st Hst'). reflexivity.
Qed.

Lemma handle_ai_job_app (now id st : string) (m : WebSocketMessage) (h : Hook) :
  app (handle_ai_job now id st m h) = ai_job_store now id st (result m) (app h).
Proof.
  unfold handle_ai_job, ai_job_store.
  destruct (find _ _), (String.eqb st "starting"), (message m) as [text|];
    try destruct (str_truthy (Some text));
    try destruct (status_toast_kind st); reflexivity.
Qed.

Lemma handle_ai_job_toasts (now id st : string) (m : WebSocketMessage) (h : Hook) :
  toasts (handle_ai_job now id st m h) = (job_toasts st (message m) ++ toasts h)%list.
Proof.
  unfold handle_ai_job, job_toasts.
  destruct (find _ _), (String.eqb st "starting"), (message m) as [text|];
    try destruct (str_truthy (Some text));
    try destruct (status_toast_kind st); reflexivity.
Qed.

Lemma handle_ai_job_console (now id st : string) (m : WebSocketMessage) (h : Hook) :
  console (handle_ai_job now id st m h) = console h.
Proof.
  unfold handle_ai_job.
  destruct (find _ _), (String.eqb st "starting"), (message m) as [text|];
    try destruct (str_truthy (Some text));
    try destruct (status_toast_kind st); reflexivity.
Qed.

Lemma find_has_job_id_Some (id : string) (jobs : list obj) (i : nat) (job : obj) :
  jobs !! i = Some job → Store.has_job_id id job = true →
  is_Some (find (Store.has_job_id id) jobs).
Proof.
  revert i. induction jobs as [|j jobs IH]; intros i Hi Hjob; [discriminate|].
  simpl. destruct (Store.has_job_id id j) eqn:Hj; [eauto|].
  destruct i as [|i]; simpl in Hi.
  - injection Hi as ->. congruence.
  - eapply IH; eassumption.
Qed.

Lemma find_has_job_id_None (id : string) (jobs : list obj) :
  find (Store.has_job_id id) jobs = None ↔ Some (VStr id) ∉ job_ids jobs.
Proof.
  induction jobs as [|j jobs IH]; simpl.
  - split; [intros _; apply not_elem_of_nil | reflexivity].
  - rewrite not_elem_of_cons.
    destruct (Store.has_job_id id j) eqn:Hj.
    + apply has_job_id_true in Hj. split; [discriminate|]. intros [Hne _]. congruence.
    + rewrite IH. split; [|tauto]. intros Hnot. split; [|exact Hnot].
      intros Heq. symmetry in Heq. apply has_job_id_true in Heq. congruence.
Qed.

Lemma job_updates_status (st : string) (res : option obj) :
  job_updates st res !! "status" =
    Some (match result_field res "status" with
          | Some v => v
          | None => VStr st
          end).
Proof.
  unfold job_updates, result_field. destruct res as [r|]; simpl.
  - rewrite lookup_spread. destruct (r !! "status"); [reflexivity|].
    apply lookup_singleton_eq.
  - apply lookup_singleton_eq.
Qed.

(** C2 (as amended).  A job whose status is terminal takes a further status
    update like any other job: the job gets the status of the message (or
    the one of the result payload, when the payload has a [status]), and
    nothing reports a rejection, for the console stays as it was and the
    toasts shown are those of the message's own status and text. *)
Theorem terminal_job_update_applied (now : string) (m : WebSocketMessage) (h : Hook)
    (id st current : string) (i : nat) (job : obj) :
  type m = "ai_job" → job_id m = Some id → id ≠ "" →
  status m = Some st → st ≠ "" →
  Store.aiJobs (app h) !! i = Some job →
  Store.has_job_id id job = true →
  status_of job = Some current → terminal_status current = true →
  ∃ job', Store.aiJobs (app (handleMessage now m h)) !! i = Some job' ∧
          job' !! "status" =
            Some (match result_field (result m) "status" with
                  | Some v => v
                  | None => VStr st
                  end) ∧
          console (handleMessage now m h) = console h ∧
          toasts (handleMessage now m h) = (job_toasts st (message m) ++ toasts h)%list.
Proof.
  intros Htype Hid Hid' Hst Hst' Hi Hjob _ _.
  rewrite (handleMessage_ai_job now m h id st) by assumption.
  rewrite handle_ai_job_app, handle_ai_job_toasts, handle_ai_job_console.
  unfold ai_job_store.
  destruct (find_has_job_id_Some id _ i job Hi Hjob) as [found ->].
  eexists. split; [apply updateAIJob_lookup, Hi|].
  rewrite Hjob, lookup_spread, job_updates_status. auto.
Qed.

Lemma terminal_job_update_applied_witness :
  ∃ job', Store.aiJobs (app (handleMessage "2025-01-01T00:06:00.000Z"
                               (job_message "job-1" "generating")
                               one_completed_job)) !! 0%nat = Some job' ∧
          job' !! "status" = Some (VStr "generating").
Proof.
  destruct (terminal_job_update_applied "2025-01-01T00:06:00.000Z"
              (job_message "job-1" "generating") one_completed_job
              "job-1" "generating" "completed" 0
              (spread (newJob "2025-01-01T00:00:00.000Z" "job-1" None)
                      {[ "status" := VStr "completed" ]}))
    as (job' & Hjob' & Hstatus & _);
    [reflexivity | reflexivity | discriminate | reflexivity | discriminate
    | reflexivity | reflexivity | reflexivity | reflexivity |].
  exists job'. split; [exact Hjob' | exact Hstatus].
Defined.

(** C2, counterexample.  A completed job that is sent [generating]: the
    update is applied, and neither a toast nor a console line reports
    anything. *)
Lemma terminal_job_update_not_rejected :
  let h := one_completed_job in
  let h' := handleMessage "2025-01-01T00:06:00.000Z"
              (job_message "job-1" "generating") h in
  job_statuses (app h) = [Some "completed"] ∧
  terminal_status "completed" = true ∧
  job_statuses (app h') = [Some "generating"] ∧
  toasts h' = toasts h ∧
  console h' = console h.
Proof. vm_compute. repeat split. Qed.

(** ** Reconnection *)

(** [handleMessage] touches neither the refs nor the timers. *)
Lemma handleMessage_connection (now : string) (m : WebSocketMessage) (h : Hook) :
  reconnectAttempts (handleMessage now m h) = reconnectAttempts h ∧
  next_timer (handleMessage now m h) = next_timer h ∧
  timers (handleMessage now m h) = timers h ∧
  sockets (handleMessage now m h) = sockets h.
Proof.
  unfold handleMessage, handle_ai_job.
  handler_cases; repeat split; reflexivity.
Qed.

Lemma onclose_below (h : Hook) :
  reconnectAttempts h < MAX_RECONNECT_ATTEMPTS →
  timers (onclose h) = (next_timer h, RECONNECT_INTERVAL) :: timers h ∧
  next_timer (onclose h) = Pos.succ (next_timer h) ∧
  reconnectTimeout (onclose h) = Some (next_timer h) ∧
  reconnectAttempts (onclose h) = S (reconnectAttempts h) ∧
  sockets (onclose h) = sockets h ∧
  toasts (onclose h) = toasts h.
Proof.
  intros Hlt. unfold onclose. simpl.
  destruct (decide _) as [_|Hge]; [|contradiction]. simpl.
  repeat split. apply Nat.add_1_r.
Qed.

Lemma onclose_exhausted (h : Hook) :
  MAX_RECONNECT_ATTEMPTS <= reconnectAttempts h →
  timers (onclose h) = timers h ∧
  next_timer (onclose h) = next_timer h ∧
  reconnectAttempts (onclose h) = reconnectAttempts h ∧
  sockets (onclose h) = sockets h ∧
  toasts (onclose h) =
    (ToastError, "WebSocket connection failed. Please refresh the page.") :: toasts h.
Proof.
  intros Hge. unfold onclose. simpl.
  destruct (decide _) as [Hlt|_]; [lia|]. repeat split.
Qed.

Lemma onopen_connection (h : Hook) :
  reconnectAttempts (onopen h) = 0 ∧
  next_timer (onopen h) = next_timer h ∧
  sockets (onopen h) = sockets h ∧
  reconnectTimeout (onopen h) = None.
Proof. unfold onopen. simpl. destruct (reconnectTimeout h); repeat split. Qed.

Lemma timer_fires_connection (handle : positive) (h : Hook) :
  reconnectAttempts (timer_fires handle h) = reconnectAttempts h ∧
  next_timer (timer_fires handle h) = next_timer h.
Proof. unfold timer_fires. destruct (decide _); repeat split. Qed.

Lemma timer_fires_pending (handle : positive) (delay : Z) (h : Hook) :
  (handle, delay) ∈ timers h →
  sockets (timer_fires handle h) = S (sockets h).
Proof.
  intros Hin. unfold timer_fires.
  destruct (decide _) as [_|Hnot]; [reflexivity|].
  exfalso. apply Hnot. apply list_elem_of_fmap. exists (handle, delay). auto.
Qed.

Lemma onclose_budget (h : Hook) :
  budget (onclose h) = budget h ∧
  Pos.to_nat (next_timer h) <= Pos.to_nat (next_timer (onclose h)).
Proof.
  unfold budget.
  destruct (decide (reconnectAttempts h < MAX_RECONNECT_ATTEMPTS)) as [Hlt|Hge].
  - destruct (onclose_below h Hlt) as (_ & -> & _ & -> & _).
    rewrite Pos2Nat.inj_succ. unfold MAX_RECONNECT_ATTEMPTS in *. lia.
  - destruct (onclose_exhausted h) as (_ & -> & -> & _); [lia|]. lia.
Qed.

Lemma step_budget (h : Hook) (e : event) :
  e ≠ Open →
  budget (step h e) = budget h ∧
  Pos.to_nat (next_timer h) <= Pos.to_nat (next_timer (step h e)).
Proof.
  intros Hopen. destruct e as [| |handle|now m]; simpl step.
  - contradiction.
  - exact (onclose_budget (socket_state CLOSED h)).
  - unfold budget. destruct (timer_fires_connection handle h) as [-> ->]. lia.
  - unfold budget. destruct (handleMessage_connection now m h) as (-> & -> & _). lia.
Qed.

Lemma run_budget (evs : list event) (h : Hook) :
  Forall (fun e => e ≠ Open) evs →
  budget (run evs h) = budget h ∧
  Pos.to_nat (next_timer h) <= Pos.to_nat (next_timer (run evs h)).
Proof.
  intros Hevs. revert h.
  induction Hevs as [|e evs He _ IH]; intros h; simpl; [lia|].
  destruct (step_budget h e He) as [Hb Hn].
  destruct (IH (step h e)) as [Hb' Hn'].
  unfold run in *. simpl. lia.
Qed.

Lemma reconnect_cycle_connection (h : Hook) :
  reconnectAttempts h < MAX_RECONNECT_ATTEMPTS →
  reconnectAttempts (reconnect_cycle h) = 0 ∧
  next_timer (reconnect_cycle h) = Pos.succ (next_timer h) ∧
  sockets (reconnect_cycle h) = S (sockets h).
Proof.
  intros Hlt. unfold reconnect_cycle, failed_cycle. simpl step.
  set (closed := onclose (socket_state CLOSED h)).
  destruct (onclose_below (socket_state CLOSED h) Hlt)
    as (Htimers & Hnext & _ & _ & Hsockets & _).
  fold closed in Htimers, Hnext, Hsockets.
  change (next_timer (socket_state CLOSED h)) with (next_timer h) in *.
  change (sockets (socket_state CLOSED h)) with (sockets h) in *.
  set (fired := timer_fires (next_timer h) closed).
  destruct (onopen_connection (socket_state OPEN fired)) as (-> & -> & -> & _).
  change (next_timer (socket_state OPEN fired)) with (next_timer fired).
  change (sockets (socket_state OPEN fired)) with (sockets fired).
  subst fired.
  destruct (timer_fires_connection (next_timer h) closed) as [_ ->].
  rewrite (timer_fires_pending (next_timer h) RECONNECT_INTERVAL), Hsockets, Hnext.
  - auto.
  - rewrite Htimers. apply list_elem_of_here.
Qed.

Lemma iter_reconnect_cycle (n : nat) (h : Hook) :
  reconnectAttempts h < MAX_RECONNECT_ATTEMPTS →
  reconnectAttempts (Nat.iter n reconnect_cycle h) < MAX_RECONNECT_ATTEMPTS ∧
  Pos.to_nat (next_timer (Nat.iter n reconnect_cycle h)) =
    Pos.to_nat (next_timer h) + n ∧
  sockets (Nat.iter n reconnect_cycle h) = sockets h + n.
Proof.
  intros Hlt. induction n as [|n (IHa & IHt & IHs)]; simpl.
  - split; [exact Hlt|]. lia.
  - destruct (reconnect_cycle_connection _ IHa) as (-> & -> & ->).
    rewrite Pos2Nat.inj_succ, IHt, IHs. unfold MAX_RECONNECT_ATTEMPTS. lia.
Qed.

(** C3 (as amended).  After a close the client waits a fixed 5000 ms before
    every attempt, whatever the attempt's number, for at most 10
    consecutive attempts: a close below the bound sets one timer of that
    delay and counts one attempt, a close at the bound sets none and shows
    an error toast, events without an open set no more timers than there
    are attempts left, an open resets the counter to zero, and with an open
    in every cycle the client reconnects any number of times. *)
Theorem reconnect_policy (h : Hook) :
  (reconnectAttempts h < MAX_RECONNECT_ATTEMPTS →
     timers (onclose h) = (next_timer h, 5000%Z) :: timers h ∧
     reconnectAttempts (onclose h) = S (reconnectAttempts h) ∧
     toasts (onclose h) = toasts h) ∧
  (10 <= reconnectAttempts h →
     timers (onclose h) = timers h ∧
     scheduled h (onclose h) = 0 ∧
     toasts (onclose h) =
       (ToastError, "WebSocket connection failed. Please refresh the page.")
         :: toasts h) ∧
  (∀ evs : list event,
     Forall (fun e => e ≠ Open) evs →
     scheduled h (run evs h) <= 10 - reconnectAttempts h) ∧
  reconnectAttempts (onopen h) = 0 ∧
  (∀ n : nat,
     reconnectAttempts h < MAX_RECONNECT_ATTEMPTS →
     scheduled h (Nat.iter n reconnect_cycle h) = n ∧
     sockets (Nat.iter n reconnect_cycle h) = sockets h + n ∧
     reconnectAttempts (Nat.iter n reconnect_cycle h) < MAX_RECONNECT_ATTEMPTS).
Proof.
  split; [|split; [|split; [|split]]].
  - intros Hlt. destruct (onclose_below h Hlt) as (Ht & _ & _ & Ha & _ & Hto). auto.
  - intros Hge. destruct (onclose_exhausted h Hge) as (Ht & Hn & _ & _ & Hto).
    unfold scheduled. rewrite Hn. split; [exact Ht|]. split; [lia | exact Hto].
  - intros evs Hevs. destruct (run_budget evs h Hevs) as [Hb Hn].
    unfold scheduled, budget, MAX_RECONNECT_ATTEMPTS in *. lia.
  - apply onopen_connection.
  - intros n Hlt. destruct (iter_reconnect_cycle n h Hlt) as (Ha & Hn & Hs).
    unfold scheduled. rewrite Hn. split; [lia|]. split; [exact Hs | exact Ha].
Qed.

Lemma reconnect_policy_witness :
  timers (onclose initial_hook) = [(1%positive, 5000%Z)] ∧
  toasts (onclose (Nat.iter 10 failed_cycle initial_hook)) =
    [(ToastError, "WebSocket connection failed. Please refresh the page.")] ∧
  scheduled initial_hook (run [Close; TimerFires 1; Close; Close] initial_hook) <= 10 ∧
  sockets (Nat.iter 25 reconnect_cycle initial_hook) = 25.
Proof.
  destruct (reconnect_policy initial_hook) as (Hbelow & _ & Hbound & _ & Hcycles).
  destruct (reconnect_policy (Nat.iter 10 failed_cycle initial_hook))
    as (_ & Hexhausted & _).
  split; [|split; [|split]].
  - apply Hbelow. vm_compute. lia.
  - apply Hexhausted. vm_compute. lia.
  - apply (Hbound [Close; TimerFires 1; Close; Close]).
    repeat constructor; discriminate.
  - apply (Hcycles 25). vm_compute. lia.
Defined.

(** C3, counterexample.  The first close of a fresh client and the close
    of the socket its first reconnect opened: the wait before attempt 2 is
    the wait before attempt 1, it has not grown. *)
Lemma reconnect_wait_does_not_grow :
  let h1 := onclose initial_hook in
  let h2 := onclose (timer_fires 1 h1) in
  reconnectAttempts h1 = 1 ∧ reconnectAttempts h2 = 2 ∧
  ∃ wait1 wait2 : Z,
    last_wait h1 = Some wait1 ∧ last_wait h2 = Some wait2 ∧
    wait1 = 5000%Z ∧ wait2 = 5000%Z ∧ ¬ (wait1 < wait2)%Z.
Proof.
  simpl. split; [reflexivity|]. split; [reflexivity|].
  exists 5000%Z, 5000%Z. repeat split. lia.
Qed.

(** ** [handleMessage], the dispatch *)

Lemma handleMessage_unknown (now : string) (m : WebSocketMessage) (h : Hook) :
  type m ≠ "status" → type m ≠ "log" → type m ≠ "ai_job" →
  handleMessage now m h = console_log "Unknown message type:" h.
Proof.
  intros Hs Hl Ha. unfold handleMessage.
  destruct (String.eqb_spec (type m) "status"); [contradiction|].
  destruct (String.eqb_spec (type m) "log"); [contradiction|].
  destruct (String.eqb_spec (type m) "ai_job"); [contradiction|].
  reflexivity.
Qed.

(** C4 (as amended).  The handler dispatches on exactly the types [status],
    [log] and [ai_job]: a [status] message with data merges the data into
    the pipeline status, a [log] message with a text shows that text as
    one toast, an [ai_job] message with a job id and a status adds the job
    when it is unknown and starting and updates it otherwise, and a message
    of any other type, [job_event] included, changes neither the store nor
    the toasts and leaves one line on the console. *)
Theorem handleMessage_dispatch (now : string) (m : WebSocketMessage) (h : Hook) :
  (type m = "status" → ∀ d : obj, data m = Some d →
     app (handleMessage now m h) = Store.setPipelineStatus d (app h) ∧
     toasts (handleMessage now m h) = toasts h) ∧
  (type m = "log" → ∀ text : string, message m = Some text → text ≠ "" →
     app (handleMessage now m h) = app h ∧
     toasts (handleMessage now m h) = (log_toast_kind text, text) :: toasts h) ∧
  (type m = "ai_job" → ∀ id st : string,
     job_id m = Some id → id ≠ "" → status m = Some st → st ≠ "" →
     (find (Store.has_job_id id) (Store.aiJobs (app h)) = None → st = "starting" →
        app (handleMessage now m h) =
          Store.addAIJob (newJob now id (result m)) (app h)) ∧
     (is_Some (find (Store.has_job_id id) (Store.aiJobs (app h))) ∨ st ≠ "starting" →
        app (handleMessage now m h) =
          Store.updateAIJob id (job_updates st (result m)) (app h))) ∧
  (type m ≠ "status" → type m ≠ "log" → type m ≠ "ai_job" →
     app (handleMessage now m h) = app h ∧
     toasts (handleMessage now m h) = toasts h ∧
     console (handleMessage now m h) =
       (ConsoleLog, "Unknown message type:") :: console h).
Proof.
  split; [|split; [|split]].
  - intros Htype d Hd. unfold handleMessage. rewrite Htype, Hd. split; reflexivity.
  - intros Htype text Htext Hne. unfold handleMessage. rewrite Htype, Htext.
    rewrite (str_truthy_Some text Hne). split; reflexivity.
  - intros Htype id st Hid Hid' Hst Hst'.
    rewrite (handleMessage_ai_job now m h id st) by assumption.
    rewrite handle_ai_job_app. unfold ai_job_store. split.
    + intros -> ->. reflexivity.
    + intros [[found ->] | Hne]; [reflexivity|].
      destruct (find _ _); [reflexivity|].
      destruct (String.eqb_spec st "starting"); [contradiction | reflexivity].
  - intros Hs Hl Ha. rewrite handleMessage_unknown by assumption.
    repeat split.
Qed.

Lemma handleMessage_dispatch_witness :
  let m := mkMessage "job_event" None (Some "job-1") (Some "starting")
             (Some "Generation started") None in
  app (handleMessage "2025-01-01T00:00:00.000Z" m initial_hook) = app initial_hook ∧
  toasts (handleMessage "2025-01-01T00:00:00.000Z" m initial_hook) = [] ∧
  app (handleMessage "2025-01-01T00:00:00.000Z" (job_message "job-1" "starting")
         initial_hook) =
    Store.addAIJob (newJob "2025-01-01T00:00:00.000Z" "job-1" None) Store.initial.
Proof.
  intros m.
  destruct (handleMessage_dispatch "2025-01-01T00:00:00.000Z" m initial_hook)
    as (_ & _ & _ & Hother).
  destruct (handleMessage_dispatch "2025-01-01T00:00:00.000Z"
              (job_message "job-1" "starting") initial_hook)
    as (_ & _ & Hjob & _).
  destruct Hother as (Happ & Htoasts & _); [discriminate..|].
  destruct (Hjob eq_refl "job-1" "starting") as [Hadd _];
    [reflexivity | discriminate | reflexivity | discriminate |].
  split; [exact Happ|]. split; [exact Htoasts|].
  apply Hadd; reflexivity.
Defined.

(** C4, counterexample.  A [job_event] message that announces a starting
    job creates no job and shows nothing, although its type is in the set
    the claim names; the same message with the type [ai_job], which is
    not in that set, adds the job and shows the toast. *)
Lemma job_event_is_not_dispatched :
  let now := "2025-01-01T00:00:00.000Z" in
  let as_job_event := mkMessage "job_event" None (Some "job-1") (Some "starting")
                        (Some "Generation started") None in
  let as_ai_job := mkMessage "ai_job" None (Some "job-1") (Some "starting")
                     (Some "Generation started") None in
  Store.aiJobs (app (handleMessage now as_job_event initial_hook)) = [] ∧
  toasts (handleMessage now as_job_event initial_hook) = [] ∧
  job_ids (Store.aiJobs (app (handleMessage now as_ai_job initial_hook))) =
    [Some (VStr "job-1")] ∧
  toasts (handleMessage now as_ai_job initial_hook) =
    [(ToastPlain, "Generation started")].
Proof. vm_compute. repeat split. Qed.

(** ** Creation of jobs *)

Lemma newJob_status (now id : string) (res : option obj) :
  newJob now id res !! "status" = Some (VStr "starting").
Proof. unfold newJob. by simplify_map_eq. Qed.

Lemma newJob_job_id (now id : string) (res : option obj) :
  newJob now id res !! "job_id" = Some (VStr id).
Proof.
  unfold newJob. rewrite lookup_insert_eq. simpl.
  destruct (String.eqb_spec id ""); simpl; congruence.
Qed.

(** Every message leaves the list of jobs alone or goes through the
    [ai_job] case with its job id and status. *)
Lemma handleMessage_aiJobs (now : string) (m : WebSocketMessage) (h : Hook) :
  Store.aiJobs (app (handleMessage now m h)) = Store.aiJobs (app h) ∨
  ∃ id st : string,
    job_id m = Some id ∧ status m = Some st ∧
    app (handleMessage now m h) = ai_job_store now id st (result m) (app h).
Proof.
  unfold handleMessage.
  destruct (String.eqb (type m) "status").
  { left. destruct (data m); reflexivity. }
  destruct (String.eqb (type m) "log").
  { left. destruct (message m) as [text|]; [|reflexivity].
    destruct (str_truthy (Some text)); reflexivity. }
  destruct (String.eqb (type m) "ai_job"); [|left; reflexivity].
  destruct (job_id m) as [id|]; [|left; reflexivity].
  destruct (status m) as [st|]; [|left; reflexivity].
  destruct (str_truthy (Some id) && str_truthy (Some st)); [|left; reflexivity].
  right. exists id, st. rewrite handle_ai_job_app. auto.
Qed.

(** The list of jobs after the [ai_job] case: the old list with the new
    job in front when the id is unknown and the status is [starting], a
    list of the same length otherwise. *)
Lemma ai_job_store_jobs (now id st : string) (res : option obj)
    (state : Store.AppState) :
  (find (Store.has_job_id id) (Store.aiJobs state) = None ∧ st = "starting" ∧
   Store.aiJobs (ai_job_store now id st res state) =
     newJob now id res :: Store.aiJobs state) ∨
  (Store.aiJobs (ai_job_store now id st res state) =
     Store.aiJobs (Store.updateAIJob id (job_updates st res) state)).
Proof.
  unfold ai_job_store.
  destruct (find _ _) eqn:Hfind; [right; reflexivity|].
  destruct (String.eqb_spec st "starting"); [left | right]; auto.
Qed.

(** C5.  Every job the message handler adds to the store has the status
    [starting]; and a message whose status is not [starting] and whose
    job id is not in the store creates no job: the list of jobs stays as
    it was. *)
Theorem handler_creates_jobs_starting (now : string) (m : WebSocketMessage) (h : Hook) :
  (length (Store.aiJobs (app (handleMessage now m h))) =
     length (Store.aiJobs (app h)) ∨
   ∃ job : obj,
     Store.aiJobs (app (handleMessage now m h)) = job :: Store.aiJobs (app h) ∧
     status_of job = Some "starting") ∧
  (∀ id : string,
     job_id m = Some id →
     find (Store.has_job_id id) (Store.aiJobs (app h)) = None →
     status m ≠ Some "starting" →
     Store.aiJobs (app (handleMessage now m h)) = Store.aiJobs (app h)).
Proof.
  destruct (handleMessage_aiJobs now m h) as [Hsame | (id & st & Hid & Hst & Happ)].
  { rewrite Hsame. split; [left; reflexivity | reflexivity]. }
  rewrite Happ.
  destruct (ai_job_store_jobs now id st (result m) (app h))
    as [(Hfind & -> & Hadd) | Hupd].
  - split.
    + right. exists (newJob now id (result m)). split; [exact Hadd|].
      unfold status_of. rewrite newJob_status. reflexivity.
    + intros id' Hid' _ Hne. congruence.
  - rewrite Hupd. split.
    + left. apply updateAIJob_length.
    + intros id' Hid' Hfind _. assert (id' = id) as -> by congruence.
      apply updateAIJob_absent, Hfind.
Qed.

Lemma handler_creates_jobs_starting_witness :
  Store.aiJobs (app (handleMessage "2025-01-01T00:07:00.000Z"
                       (job_message "job-2" "rendering") one_completed_job)) =
  Store.aiJobs (app one_completed_job).
Proof.
  destruct (handler_creates_jobs_starting "2025-01-01T00:07:00.000Z"
              (job_message "job-2" "rendering") one_completed_job) as [_ Hnone].
  apply (Hnone "job-2"); [reflexivity | reflexivity | discriminate].
Defined.

(** ** Uniqueness of job ids *)

Lemma job_updates_job_id (st : string) (res : option obj) :
  job_updates st res !! "job_id" = result_field res "job_id".
Proof.
  unfold job_updates, result_field. destruct res as [r|]; simpl.
  - rewrite lookup_spread. destruct (r !! "job_id"); reflexivity.
  - reflexivity.
Qed.

Lemma updateAIJob_job_ids (id : string) (updates : obj) (state : Store.AppState) :
  updates !! "job_id" = None ∨ updates !! "job_id" = Some (VStr id) →
  job_ids (Store.aiJobs (Store.updateAIJob id updates state)) =
  job_ids (Store.aiJobs state).
Proof.
  intros Hupd. unfold Store.updateAIJob, job_ids. simpl.
  induction (Store.aiJobs state) as [|job jobs IH]; simpl; [reflexivity|].
  rewrite IH. f_equal.
  destruct (Store.has_job_id id job) eqn:Hjob; [|reflexivity].
  apply has_job_id_true in Hjob. rewrite lookup_spread.
  destruct Hupd as [-> | ->]; congruence.
Qed.

Lemma handleMessage_job_ids (now : string) (m : WebSocketMessage) (h : Hook) :
  result_keeps_id m = true →
  NoDup (job_ids (Store.aiJobs (app h))) →
  NoDup (job_ids (Store.aiJobs (app (handleMessage now m h)))).
Proof.
  intros Hkeeps Hnodup.
  destruct (handleMessage_aiJobs now m h) as [-> | (id & st & Hid & Hst & ->)];
    [exact Hnodup|].
  destruct (ai_job_store_jobs now id st (result m) (app h))
    as [(Hfind & _ & ->) | ->].
  - simpl. rewrite newJob_job_id. apply NoDup_cons. split; [|exact Hnodup].
    apply find_has_job_id_None, Hfind.
  - rewrite updateAIJob_job_ids; [exact Hnodup|].
    rewrite job_updates_job_id. unfold result_keeps_id in Hkeeps.
    destruct (result_field (result m) "job_id") as [[| | |s| |]|];
      try discriminate; [|left; reflexivity].
    apply bool_decide_eq_true in Hkeeps. right. congruence.
Qed.

Lemma step_aiJobs_connection (h : Hook) (e : event) :
  (∀ now m, e ≠ Message now m) →
  Store.aiJobs (app (step h e)) = Store.aiJobs (app h).
Proof.
  intros Hmsg. destruct e as [| |handle|now m]; simpl step.
  - unfold onopen. simpl. destruct (reconnectTimeout h); reflexivity.
  - unfold onclose. simpl. destruct (decide _); reflexivity.
  - unfold timer_fires. destruct (decide _); reflexivity.
  - exfalso. by eapply Hmsg.
Qed.

Lemma step_job_ids (h : Hook) (e : event) :
  keeps_id e = true →
  NoDup (job_ids (Store.aiJobs (app h))) →
  NoDup (job_ids (Store.aiJobs (app (step h e)))).
Proof.
  intros Hkeeps Hnodup. destruct e as [| |handle|now m].
  - rewrite step_aiJobs_connection by discriminate. exact Hnodup.
  - rewrite step_aiJobs_connection by discriminate. exact Hnodup.
  - rewrite step_aiJobs_connection by discriminate. exact Hnodup.
  - apply handleMessage_job_ids; assumption.
Qed.

Lemma run_job_ids (evs : list event) (h : Hook) :
  Forall (fun e => keeps_id e = true) evs →
  NoDup (job_ids (Store.aiJobs (app h))) →
  NoDup (job_ids (Store.aiJobs (app (run evs h)))).
Proof.
  intros Hevs. revert h.
  induction Hevs as [|e evs He _ IH]; intros h Hnodup; [exact Hnodup|].
  apply (IH (step h e)), step_job_ids; assumption.
Qed.

(** C6 (as amended).  Job ids stay unique under the message handler for
    every sequence of events whose result payloads carry no [job_id] other
    than the one of their message: the handler adds a job only when no job
    of the store has the message's id, the new job then has that id, and a
    [starting] message for an id that is in the store keeps the number of
    jobs, and with such a payload their ids. *)
Theorem job_ids_stay_unique (evs : list event) (h : Hook)
    (now : string) (m : WebSocketMessage) :
  (Forall (fun e => keeps_id e = true) evs →
   NoDup (job_ids (Store.aiJobs (app h))) →
   NoDup (job_ids (Store.aiJobs (app (run evs h))))) ∧
  (length (Store.aiJobs (app (handleMessage now m h))) =
     length (Store.aiJobs (app h)) ∨
   ∃ id : string,
     job_id m = Some id ∧
     (Some (VStr id) ∉ job_ids (Store.aiJobs (app h))) ∧
     job_ids (Store.aiJobs (app (handleMessage now m h))) =
       Some (VStr id) :: job_ids (Store.aiJobs (app h))) ∧
  (∀ id : string,
     job_id m = Some id → status m = Some "starting" →
     Some (VStr id) ∈ job_ids (Store.aiJobs (app h)) →
     length (Store.aiJobs (app (handleMessage now m h))) =
       length (Store.aiJobs (app h)) ∧
     (result_keeps_id m = true →
      job_ids (Store.aiJobs (app (handleMessage now m h))) =
        job_ids (Store.aiJobs (app h)))).
Proof.
  split; [apply run_job_ids|].
  destruct (handleMessage_aiJobs now m h) as [Hsame | (id & st & Hid & Hst & Happ)].
  { rewrite Hsame. split; [left; reflexivity|]. intros; split; reflexivity. }
  rewrite Happ.
  destruct (ai_job_store_jobs now id st (result m) (app h))
    as [(Hfind & _ & Hadd) | Hupd].
  - split.
    + right. exists id. split; [exact Hid|].
      split; [apply find_has_job_id_None, Hfind|].
      rewrite Hadd. simpl. rewrite newJob_job_id. reflexivity.
    + intros id' Hid' _ Hin. assert (id' = id) as -> by congruence.
      apply find_has_job_id_None in Hfind. contradiction.
  - rewrite Hupd. split; [left; apply updateAIJob_length|].
    intros id' Hid' _ _. split; [apply updateAIJob_length|].
    intros Hkeeps. apply updateAIJob_job_ids.
    rewrite job_updates_job_id. unfold result_keeps_id in Hkeeps.
    destruct (result_field (result m) "job_id") as [[| | |s| |]|];
      try discriminate; [|left; reflexivity].
    apply bool_decide_eq_true in Hkeeps. right. congruence.
Qed.

Lemma job_ids_stay_unique_witness :
  let t := "2025-01-01T00:00:00.000Z" in
  NoDup (job_ids (Store.aiJobs (app (run
    [Message t (job_message "job-1" "starting");
     Message t (job_message "job-2" "starting");
     Message t (job_message "job-1" "starting");
     Message t (job_message_with "job-1" "completed"
                  {[ "job_id" := VStr "job-1"; "thumbnail" := VStr "t.png" ]})]
    initial_hook)))).
Proof.
  intros t.
  eapply (job_ids_stay_unique _ initial_hook t (job_message "job-1" "starting")).
  - repeat constructor.
  - constructor.
Defined.

(** C6, counterexample.  Two jobs start, then an update for the first one
    arrives whose result payload names the second: the spread writes the
    payload's [job_id] over the job's own, and the store holds two jobs
    with one id. *)
Lemma job_ids_duplicated_by_payload :
  let t := "2025-01-01T00:00:00.000Z" in
  let jobs := Store.aiJobs (app (run
    [Message t (job_message "job-1" "starting");
     Message t (job_message "job-2" "starting");
     Message t (job_message_with "job-1" "generating" {[ "job_id" := VStr "job-2" ]})]
    initial_hook)) in
  job_ids jobs = [Some (VStr "job-2"); Some (VStr "job-2")] ∧
  ¬ NoDup (job_ids jobs).
Proof.
  assert (job_ids (Store.aiJobs (app (run
    [Message "2025-01-01T00:00:00.000Z" (job_message "job-1" "starting");
     Message "2025-01-01T00:00:00.000Z" (job_message "job-2" "starting");
     Message "2025-01-01T00:00:00.000Z"
       (job_message_with "job-1" "generating" {[ "job_id" := VStr "job-2" ]})]
    initial_hook))) = [Some (VStr "job-2"); Some (VStr "job-2")]) as Hids
    by (vm_compute; reflexivity).
  cbv zeta. rewrite Hids. split; [reflexivity|].
  intros Hnodup. apply NoDup_cons in Hnodup as [Hnotin _].
  apply Hnotin, list_elem_of_here.
Qed.

(** ** Rendering of the failure states *)

Lemma status_message_toasts (now id st text : string) (res : option obj) (h : Hook) :
  st ≠ "" →
  toasts (handleMessage now (status_message id st text res) h) =
    (if str_truthy (Some id)
     then job_toasts st (Some text) ++ toasts h
     else toasts h)%list.
Proof.
  intros Hst. unfold handleMessage. simpl type. simpl job_id. simpl status.
  change (String.eqb "ai_job" "status") with false.
  change (String.eqb "ai_job" "log") with false.
  change (String.eqb "ai_job" "ai_job") with true. cbv iota.
  rewrite (str_truthy_Some st Hst).
  destruct (str_truthy (Some id)); [|reflexivity].
  simpl andb. cbv iota. apply handle_ai_job_toasts.
Qed.

(** C7 (as amended).  Observers are shown the two failure states alike:
    [error] and [failed] get the same icon, the same badge colour and the
    same kind of notification, an error toast, and every message that
    differs only in carrying the one or the other leaves the same toasts;
    the indication separates the two from every other status only. *)
Theorem failure_states_rendered_alike :
  getStatusIcon "error" = getStatusIcon "failed" ∧
  getStatusColor "error" = getStatusColor "failed" ∧
  status_toast_kind "error" = Some ToastError ∧
  status_toast_kind "failed" = Some ToastError ∧
  (∀ (now id text : string) (res : option obj) (h : Hook),
     toasts (handleMessage now (status_message id "error" text res) h) =
     toasts (handleMessage now (status_message id "failed" text res) h)) ∧
  (∀ st : string, st ≠ "failed" → st ≠ "error" →
     getStatusIcon st ≠ getStatusIcon "error" ∧
     getStatusColor st ≠ getStatusColor "error" ∧
     status_toast_kind st ≠ Some ToastError).
Proof.
  split; [reflexivity|]. split; [reflexivity|].
  split; [reflexivity|]. split; [reflexivity|]. split.
  - intros now id text res h.
    rewrite !status_message_toasts by discriminate. reflexivity.
  - intros st Hfailed Herror.
    unfold getStatusIcon, getStatusColor, status_toast_kind.
    destruct (String.eqb_spec st "failed"); [contradiction|].
    destruct (String.eqb_spec st "error"); [contradiction|].
    destruct (String.eqb st "completed"), (String.eqb st "generating"),
      (String.eqb st "starting"); simpl; repeat split; discriminate.
Qed.

Lemma failure_states_rendered_alike_witness :
  getStatusIcon "completed" ≠ getStatusIcon "error" ∧
  getStatusColor "generating" ≠ getStatusColor "error" ∧
  status_toast_kind "starting" ≠ Some ToastError.
Proof.
  destruct failure_states_rendered_alike as (_ & _ & _ & _ & _ & Hothers).
  split; [|split].
  - apply (Hothers "completed"); discriminate.
  - apply (Hothers "generating"); discriminate.
  - apply (Hothers "starting"); discriminate.
Defined.

(** C7, counterexample.  The indication for [error] is the indication for
    [failed]. *)
Lemma error_indicated_as_failed :
  indication "error" = indication "failed" ∧
  indication "error" =
    (mkIcon "XCircle" "w-5 h-5 text-red-500", "bg-red-100 text-red-800",
     Some ToastError).
Proof. split; reflexivity. Qed.

(** ** The frame of [updateAIJob] *)

(** C8.  A call of [updateAIJob] keeps the length of the list of jobs and
    the position of every job, leaves every job whose [job_id] is not the
    given one exactly as it was, touches nothing else of the store, and
    when no job has the given id leaves the whole store as it was. *)
Theorem updateAIJob_frame (jobId : string) (updates : obj) (state : Store.AppState) :
  length (Store.aiJobs (Store.updateAIJob jobId updates state)) =
    length (Store.aiJobs state) ∧
  (∀ (i : nat) (job : obj),
     Store.aiJobs state !! i = Some job →
     job !! "job_id" ≠ Some (VStr jobId) →
     Store.aiJobs (Store.updateAIJob jobId updates state) !! i = Some job) ∧
  (∀ (i : nat) (job : obj),
     Store.aiJobs state !! i = Some job →
     job !! "job_id" = Some (VStr jobId) →
     Store.aiJobs (Store.updateAIJob jobId updates state) !! i =
       Some (spread job updates)) ∧
  Store.setAIJobs (Store.aiJobs state) (Store.updateAIJob jobId updates state) =
    state ∧
  (Some (VStr jobId) ∉ job_ids (Store.aiJobs state) →
   Store.updateAIJob jobId updates state = state).
Proof.
  split; [apply updateAIJob_length|].
  split; [|split; [|split; [by destruct state|]]].
  - intros i job Hi Hid. rewrite (updateAIJob_lookup _ _ _ _ _ Hi).
    destruct (Store.has_job_id jobId job) eqn:Hjob; [|reflexivity].
    apply has_job_id_true in Hjob. contradiction.
  - intros i job Hi Hid. rewrite (updateAIJob_lookup _ _ _ _ _ Hi).
    apply has_job_id_true in Hid. rewrite Hid. reflexivity.
  - intros Hnone. apply find_has_job_id_None in Hnone.
    pose proof (updateAIJob_absent jobId updates state Hnone) as Hjobs.
    destruct state as [au ps jobs ai connected sidebar th].
    unfold Store.updateAIJob in *.
    simpl in *. rewrite Hjobs. reflexivity.
Qed.

Lemma updateAIJob_frame_witness :
  Store.updateAIJob "job-7" {[ "status" := VStr "failed" ]} (app one_completed_job) =
  app one_completed_job.
Proof.
  destruct (updateAIJob_frame "job-7" {[ "status" := VStr "failed" ]}
              (app one_completed_job)) as (_ & _ & _ & _ & Hnone).
  apply Hnone. vm_compute.
  intros Hin. apply list_elem_of_singleton in Hin. discriminate.
Defined.

(** ** Frames that do not parse *)

(** A console line more or less does not change what a message does to
    the store, the toasts and the connection. *)
Lemma handleMessage_console_write (now line : string) (level : console_level)
    (m : WebSocketMessage) (h : Hook) :
  app (handleMessage now m (console_write level line h)) =
    app (handleMessage now m h) ∧
  toasts (handleMessage now m (console_write level line h)) =
    toasts (handleMessage now m h) ∧
  ws (handleMessage now m (console_write level line h)) =
    ws (handleMessage now m h).
Proof.
  unfold handleMessage, handle_ai_job. simpl.
  handler_cases; repeat split; reflexivity.
Qed.

(** C9.  A frame that [JSON.parse] rejects is caught: all the handler
    leaves is one console line, so the store (pipeline status, jobs,
    connection flag), the socket and its ready state, the timers and the
    toasts are as before, and a frame that parses is handled afterwards as
    it would have been without the rejected one. *)
Theorem malformed_frame_ignored (JSON_parse : string → option WebSocketMessage)
    (now data : string) (h : Hook) :
  JSON_parse data = None →
  onmessage JSON_parse now data h =
    console_error "Error parsing WebSocket message:" h ∧
  app (onmessage JSON_parse now data h) = app h ∧
  ws (onmessage JSON_parse now data h) = ws h ∧
  sockets (onmessage JSON_parse now data h) = sockets h ∧
  timers (onmessage JSON_parse now data h) = timers h ∧
  toasts (onmessage JSON_parse now data h) = toasts h ∧
  (∀ (now' data' : string) (m : WebSocketMessage),
     JSON_parse data' = Some m →
     app (onmessage JSON_parse now' data' (onmessage JSON_parse now data h)) =
       app (handleMessage now' m h) ∧
     toasts (onmessage JSON_parse now' data' (onmessage JSON_parse now data h)) =
       toasts (handleMessage now' m h) ∧
     ws (onmessage JSON_parse now' data' (onmessage JSON_parse now data h)) =
       ws (handleMessage now' m h)).
Proof.
  intros Hparse. unfold onmessage at 1 2 3 4 5 6. rewrite Hparse.
  repeat (split; [reflexivity|]).
  intros now' data' m Hparse'. unfold onmessage. rewrite Hparse, Hparse'.
  apply handleMessage_console_write.
Qed.

Lemma malformed_frame_ignored_witness :
  let parse := parse_table [("frame-1", job_message "job-2" "starting")] in
  app (onmessage parse "2025-01-01T00:08:00.000Z" "{type:" one_completed_job) =
    app one_completed_job ∧
  job_statuses (app (onmessage parse "2025-01-01T00:09:00.000Z" "frame-1"
                       (onmessage parse "2025-01-01T00:08:00.000Z" "{type:"
                          one_completed_job))) =
    [Some "starting"; Some "completed"].
Proof.
  intros parse.
  destruct (malformed_frame_ignored parse "2025-01-01T00:08:00.000Z" "{type:"
              one_completed_job eq_refl) as (_ & Happ & _ & _ & _ & _ & Hnext).
  split; [exact Happ|].
  destruct (Hnext "2025-01-01T00:09:00.000Z" "frame-1"
              (job_message "job-2" "starting") eq_refl) as (-> & _).
  reflexivity.
Defined.

(** ** [sendMessage] *)

(** C10.  [sendMessage] sends the serialized message when there is a
    socket and it is open, and only then: in every other ready state and
    without a socket it returns without an exception, sends nothing and
    leaves a warning on the console. *)
Theorem sendMessage_only_when_open (any : Type) (JSON_stringify : any → option string)
    (msg : any) (h : Hook) :
  (ws h = Some OPEN → ∀ frame : string, JSON_stringify msg = Some frame →
     ∃ h', sendMessage any JSON_stringify msg h = Some h' ∧
           sent h' = frame :: sent h ∧ console h' = console h) ∧
  (ws h ≠ Some OPEN →
     ∃ h', sendMessage any JSON_stringify msg h = Some h' ∧
           sent h' = sent h ∧
           console h' = (ConsoleWarn, "WebSocket is not connected") :: console h ∧
           app h' = app h ∧ ws h' = ws h) ∧
  (∀ h', sendMessage any JSON_stringify msg h = Some h' →
         sent h' ≠ sent h → ws h = Some OPEN).
Proof.
  unfold sendMessage. split; [|split].
  - intros -> frame ->. eexists. split; [reflexivity|]. split; reflexivity.
  - intros Hws. destruct (ws h) as [[| | |]|] eqn:Hstate;
      try (eexists; split; [reflexivity|]; repeat split; assumption).
    contradiction.
  - intros h' Hsend Hsent. destruct (ws h) as [[| | |]|];
      try reflexivity; injection Hsend as <-; contradiction.
Qed.

Lemma sendMessage_only_when_open_witness :
  (∃ h', sendMessage string Some "ping" reconnected = Some h' ∧
         sent h' = ["ping"]) ∧
  (∃ h', sendMessage string Some "ping" (connect initial_hook) = Some h' ∧
         sent h' = []) ∧
  (∃ h', sendMessage string Some "ping" initial_hook = Some h' ∧
         sent h' = []).
Proof.
  destruct (sendMessage_only_when_open string Some "ping" reconnected)
    as (Hopen & _ & _).
  destruct (sendMessage_only_when_open string Some "ping" (connect initial_hook))
    as (_ & Hconnecting & _).
  destruct (sendMessage_only_when_open string Some "ping" initial_hook)
    as (_ & Hnone & _).
  split; [|split].
  - destruct (Hopen eq_refl "ping" eq_refl) as (h' & Hsend & Hsent & _).
    exists h'. split; [exact Hsend | exact Hsent].
  - destruct Hconnecting as (h' & Hsend & Hsent & _); [discriminate|].
    exists h'. split; [exact Hsend | exact Hsent].
  - destruct Hnone as (h' & Hsend & Hsent & _); [discriminate|].
    exists h'. split; [exact Hsend | exact Hsent].
Defined.

(** * Further properties of the store *)

Lemma spread_idemp (base over : obj) : spread (spread base over) over = spread base over.
Proof.
  apply map_eq. intros key. rewrite !lookup_spread.
  destruct (over !! key); reflexivity.
Qed.

(** X1.  A [status] message merges its data into the pipeline status: a
    property the data names takes the data's value, every other property
    keeps its own, and the same message once more changes nothing. *)
Theorem status_message_merges (now now' : string) (m : WebSocketMessage) (h : Hook)
    (d : obj) :
  type m = "status" → data m = Some d →
  (∀ key : string,
     Store.pipelineStatus (app (handleMessage now m h)) !! key =
       match d !! key with
       | Some v => Some v
       | None => Store.pipelineStatus (app h) !! key
       end) ∧
  Store.aiJobs (app (handleMessage now m h)) = Store.aiJobs (app h) ∧
  handleMessage now' m (handleMessage now m h) = handleMessage now m h.
Proof.
  intros Htype Hd. unfold handleMessage. rewrite Htype, Hd.
  change (String.eqb "status" "status") with true. cbv iota.
  split; [|split; [reflexivity|]].
  - intros key. simpl. apply lookup_spread.
  - unfold with_app, Store.setPipelineStatus. simpl.
    rewrite spread_idemp. reflexivity.
Qed.

Lemma status_message_merges_witness :
  let m := mkMessage "status" (Some {[ "status" := VStr "running" ]}) None None None None in
  let h := handleMessage "2025-01-01T00:00:00.000Z" m initial_hook in
  Store.pipelineStatus (app h) !! "status" = Some (VStr "running") ∧
  Store.pipelineStatus (app h) !! "videos_processed" = Some (VNum 0).
Proof.
  intros m h.
  destruct (status_message_merges "2025-01-01T00:00:00.000Z" "2025-01-01T00:00:01.000Z"
              m initial_hook {[ "status" := VStr "running" ]} eq_refl eq_refl)
    as (Hkeys & _).
  split; [exact (Hkeys "status") | exact (Hkeys "videos_processed")].
Defined.

(** X2.  [updateAIJob] is idempotent: the same update a second time
    leaves the store as the first one left it, also when the update
    renames the job. *)
Theorem updateAIJob_idempotent (jobId : string) (updates : obj) (state : Store.AppState) :
  Store.updateAIJob jobId updates (Store.updateAIJob jobId updates state) =
  Store.updateAIJob jobId updates state.
Proof.
  unfold Store.updateAIJob. simpl. f_equal.
  rewrite map_map. apply map_ext. intros job.
  destruct (Store.has_job_id jobId job) eqn:Hjob; [|rewrite Hjob; reflexivity].
  destruct (Store.has_job_id jobId (spread job updates)); [|reflexivity].
  apply spread_idemp.
Qed.

(** No event of the hook touches the slices of the store that
    [partialize] reads, nor the AI status. *)
Lemma handleMessage_slices (now : string) (m : WebSocketMessage) (h : Hook) :
  Store.auth (app (handleMessage now m h)) = Store.auth (app h) ∧
  Store.aiStatus (app (handleMessage now m h)) = Store.aiStatus (app h) ∧
  Store.wsConnected (app (handleMessage now m h)) = Store.wsConnected (app h) ∧
  Store.sidebarOpen (app (handleMessage now m h)) = Store.sidebarOpen (app h) ∧
  Store.theme (app (handleMessage now m h)) = Store.theme (app h).
Proof.
  unfold handleMessage, handle_ai_job.
  handler_cases; repeat split; reflexivity.
Qed.

Lemma step_slices (h : Hook) (e : event) :
  Store.auth (app (step h e)) = Store.auth (app h) ∧
  Store.aiStatus (app (step h e)) = Store.aiStatus (app h) ∧
  Store.sidebarOpen (app (step h e)) = Store.sidebarOpen (app h) ∧
  Store.theme (app (step h e)) = Store.theme (app h).
Proof.
  destruct e as [| |handle|now m]; simpl step.
  - unfold onopen. simpl. destruct (reconnectTimeout h); repeat split.
  - unfold onclose. simpl. destruct (decide _); repeat split.
  - unfold timer_fires. destruct (decide _); repeat split.
  - destruct (handleMessage_slices now m h) as (-> & -> & _ & -> & ->). repeat split.
Qed.

Lemma run_slices (evs : list event) (h : Hook) :
  Store.auth (app (run evs h)) = Store.auth (app h) ∧
  Store.aiStatus (app (run evs h)) = Store.aiStatus (app h) ∧
  Store.sidebarOpen (app (run evs h)) = Store.sidebarOpen (app h) ∧
  Store.theme (app (run evs h)) = Store.theme (app h).
Proof.
  revert h. induction evs as [|e evs IH]; intros h; [repeat split|].
  change (run (e :: evs) h) with (run evs (step h e)).
  destruct (IH (step h e)) as (-> & -> & -> & ->). apply step_slices.
Qed.

(** X3.  Nothing the WebSocket hook does reaches what [persist] writes:
    after any sequence of opens, closes, timers and messages, and after
    [disconnect], [partialize] gives what it gave before, so neither jobs
    nor pipeline status nor the connection flag survive a reload. *)
Theorem persisted_state_ignores_hook (evs : list event) (h : Hook) :
  Store.partialize (app (run evs h)) = Store.partialize (app h) ∧
  Store.partialize (app (disconnect (run evs h))) = Store.partialize (app h) ∧
  (∀ (jobs : list obj) (statusUpdates : obj) (connected : bool),
     Store.partialize (Store.setAIJobs jobs (app h)) = Store.partialize (app h) ∧
     Store.partialize (Store.setPipelineStatus statusUpdates (app h)) =
       Store.partialize (app h) ∧
     Store.partialize (Store.setWsConnected connected (app h)) =
       Store.partialize (app h)).
Proof.
  destruct (run_slices evs h) as (Hauth & _ & Hsidebar & Htheme).
  assert (Store.partialize (app (run evs h)) = Store.partialize (app h)) as Hrun.
  { unfold Store.partialize. rewrite Hauth, Hsidebar, Htheme. reflexivity. }
  split; [exact Hrun|]. split; [|intros; repeat split].
  rewrite <- Hrun. unfold disconnect.
  destruct (reconnectTimeout (run evs h)); simpl;
    destruct (ws (run evs h)); reflexivity.
Qed.

(** ** Logging in and out *)

Lemma before_at_prefix (email : string) : String.prefix (Store.before_at email) email = true.
Proof.
  induction email as [|c rest IH]; [reflexivity|]. simpl.
  destruct (Ascii.eqb c "@"); simpl; [reflexivity|].
  destruct (ascii_dec c c) as [_|Hne]; [exact IH | contradiction].
Qed.

Lemma index_at_cons (c : ascii) (s : string) :
  String.index 0 "@" (String c s) =
    if Ascii.eqb c "@" then Some 0
    else match String.index 0 "@" s with
         | Some n => Some (S n)
         | None => None
         end.
Proof.
  assert (String.prefix "@" (String c s) = Ascii.eqb c "@") as Hp.
  { destruct (Ascii.eqb_spec c "@") as [->|Hc].
    - apply String.prefix_correct. destruct s; reflexivity.
    - apply not_true_is_false. intros Hp.
      apply String.prefix_correct in Hp. simpl in Hp. congruence. }
  cbn [String.index]. rewrite Hp. reflexivity.
Qed.

(** X4.  The name of the mock user is the part of the email before its
    first [@]: it is a prefix of the email that has no [@], what follows
    it in the email is nothing or begins with [@], and an email without
    [@] is taken whole. *)
Theorem before_at_spec (email : string) :
  includes "@" (Store.before_at email) = false ∧
  (∃ rest : string,
     email = Store.before_at email +:+ rest ∧
     (rest = "" ∨ ∃ domain : string, rest = String "@" domain)) ∧
  (includes "@" email = false → Store.before_at email = email).
Proof.
  unfold includes.
  induction email as [|c rest (IHno & (tail & IHtail & IHsep) & IHall)].
  { repeat split. exists "". split; [reflexivity | left; reflexivity]. }
  simpl Store.before_at. rewrite index_at_cons.
  destruct (Ascii.eqb_spec c "@") as [->|Hc].
  - split; [reflexivity|]. split; [|discriminate].
    exists (String "@" rest). split; [reflexivity|]. right. eauto.
  - rewrite index_at_cons. destruct (Ascii.eqb_spec c "@") as [|_]; [contradiction|].
    split; [|split].
    + destruct (String.index 0 "@" (Store.before_at rest)); [discriminate | reflexivity].
    + exists tail. split; [|exact IHsep].
      change (String c rest = String c (Store.before_at rest +:+ tail)). congruence.
    + intros Hnone. f_equal. apply IHall.
      destruct (String.index 0 "@" rest); [discriminate | reflexivity].
Qed.

Lemma before_at_spec_witness : Store.before_at "ada" = "ada".
Proof.
  destruct (before_at_spec "ada") as (_ & _ & Hall). apply Hall. reflexivity.
Defined.




(** * Further properties of the hook *)

Lemma disconnect_fields (h : Hook) :
  ws (disconnect h) = None ∧
  reconnectTimeout (disconnect h) = None ∧
  timers (disconnect h) =
    match reconnectTimeout h with
    | Some handle => filter (λ t : positive * Z, t.1 ≠ handle) (timers h)
    | None => timers h
    end ∧
  app (disconnect h) = Store.setWsConnected false (app h) ∧
  reconnectAttempts (disconnect h) = reconnectAttempts h ∧
  next_timer (disconnect h) = next_timer h ∧
  sockets (disconnect h) = sockets h ∧
  toasts (disconnect h) = toasts h ∧
  sent (disconnect h) = sent h.
Proof.
  destruct h as [a n rt ts nt so w se to co]. unfold disconnect. simpl.
  destruct rt, w; repeat split.
Qed.

(** X7.  [disconnect] leaves no socket, no recorded timer and the
    connection flag down; the timer that was recorded is no longer
    pending; a second [disconnect] changes nothing; the jobs, the toasts
    and the frames sent are as before; and every [sendMessage] after it
    is dropped with the warning. *)
Theorem disconnect_spec (h : Hook) :
  ws (disconnect h) = None ∧
  reconnectTimeout (disconnect h) = None ∧
  Store.wsConnected (app (disconnect h)) = false ∧
  (∀ handle : positive,
     reconnectTimeout h = Some handle → handle ∉ (timers (disconnect h)).*1) ∧
  disconnect (disconnect h) = disconnect h ∧
  Store.aiJobs (app (disconnect h)) = Store.aiJobs (app h) ∧
  toasts (disconnect h) = toasts h ∧
  sent (disconnect h) = sent h ∧
  (∀ (any : Type) (JSON_stringify : any → option string) (msg : any),
     sendMessage any JSON_stringify msg (disconnect h) =
       Some (console_warn "WebSocket is not connected" (disconnect h))).
Proof.
  destruct (disconnect_fields h)
    as (Hws & Htimeout & Htimers & Happ & _ & _ & _ & Htoasts & Hsent).
  split; [exact Hws|]. split; [exact Htimeout|].
  split; [rewrite Happ; reflexivity|].
  split.
  { intros handle Hhandle. rewrite Htimers, Hhandle.
    intros ([a b] & Heq & [Hne _]%list_elem_of_filter)%list_elem_of_fmap.
    simpl in *. congruence. }
  split.
  { destruct h as [a n rt ts nt so w se to co]. unfold disconnect. simpl.
    destruct rt, w; reflexivity. }
  split; [rewrite Happ; reflexivity|].
  split; [exact Htoasts|]. split; [exact Hsent|].
  intros any JSON_stringify msg. unfold sendMessage. rewrite Hws. reflexivity.
Qed.

Lemma disconnect_spec_witness :
  (1%positive) ∉ (timers (disconnect (onclose initial_hook))).*1.
Proof.
  destruct (disconnect_spec (onclose initial_hook)) as (_ & _ & _ & Hcleared & _).
  apply (Hcleared 1%positive). reflexivity.
Defined.




(** X9.  An open cancels the reconnect the hook has recorded: the timer
    is no longer pending, so its callback never runs [connect], and the
    ref is cleared. *)
Theorem open_cancels_pending_reconnect (h : Hook) (handle : positive) :
  reconnectTimeout h = Some handle →
  reconnectTimeout (onopen h) = None ∧
  (handle ∉ (timers (onopen h)).*1) ∧
  timer_fires handle (onopen h) = onopen h ∧
  sockets (timer_fires handle (onopen h)) = sockets h.
Proof.
  intros Hhandle.
  assert (handle ∉ (timers (onopen h)).*1) as Hnot.
  { unfold onopen. simpl. rewrite Hhandle. simpl.
    intros ([a b] & Heq & [Hne _]%list_elem_of_filter)%list_elem_of_fmap.
    simpl in *. congruence. }
  assert (timer_fires handle (onopen h) = onopen h) as Hsame.
  { unfold timer_fires. destruct (decide _); [contradiction | reflexivity]. }
  split; [apply onopen_connection|]. split; [exact Hnot|].
  split; [exact Hsame|]. rewrite Hsame. apply onopen_connection.
Qed.

Lemma open_cancels_pending_reconnect_witness :
  timer_fires 1 (onopen (onclose initial_hook)) = onopen (onclose initial_hook).
Proof.
  apply (open_cancels_pending_reconnect (onclose initial_hook) 1). reflexivity.
Defined.

(** X10.  A message never touches the connection: whatever it is,
    [handleMessage] leaves the socket, the frames sent, the reconnect
    counter, the recorded timer, the pending timers and the connection
    flag of the store as they were. *)
Theorem handleMessage_keeps_connection (now : string) (m : WebSocketMessage) (h : Hook) :
  ws (handleMessage now m h) = ws h ∧
  sent (handleMessage now m h) = sent h ∧
  sockets (handleMessage now m h) = sockets h ∧
  reconnectAttempts (handleMessage now m h) = reconnectAttempts h ∧
  reconnectTimeout (handleMessage now m h) = reconnectTimeout h ∧
  timers (handleMessage now m h) = timers h ∧
  next_timer (handleMessage now m h) = next_timer h ∧
  Store.wsConnected (app (handleMessage now m h)) = Store.wsConnected (app h).
Proof.
  unfold handleMessage, handle_ai_job.
  handler_cases; repeat split; reflexivity.
Qed.

(** X11.  A message shows at most one toast, and only with a text of its
    own: the toasts after it are the toasts before it, or those with one
    toast in front that carries the message's text as it came. *)
Theorem handleMessage_toasts (now : string) (m : WebSocketMessage) (h : Hook) :
  toasts (handleMessage now m h) = toasts h ∨
  ∃ (k : toast_kind) (text : string),
    message m = Some text ∧ text ≠ "" ∧
    toasts (handleMessage now m h) = (k, text) :: toasts h.
Proof.
  unfold handleMessage, handle_ai_job.
  destruct (String.eqb (type m) "status"); [left; by destruct (data m)|].
  destruct (message m) as [text|] eqn:Htext.
  - destruct (String.eqb_spec text "") as [->|Hne].
    + left. simpl. handler_cases; reflexivity.
    + rewrite (str_truthy_Some text Hne).
      destruct (String.eqb (type m) "log"); [right; eauto|].
      destruct (String.eqb (type m) "ai_job"); [|left; reflexivity].
      destruct (job_id m) as [id|]; [|left; reflexivity].
      destruct (status m) as [st|]; [|left; reflexivity].
      destruct (str_truthy (Some id) && str_truthy (Some st)); [|left; reflexivity].
      destruct (status_toast_kind st) as [k|]; [right | left].
      * exists k, text. repeat split; [exact Hne|]. handler_cases; reflexivity.
      * handler_cases; reflexivity.
  - left. handler_cases; reflexivity.
Qed.

(** ** The toast of a log message *)

Lemma append_cons (c : ascii) (s t : string) : String c s +:+ t = String c (s +:+ t).
Proof. reflexivity. Qed.

Lemma substring_append_here (sub post : string) :
  String.substring 0 (String.length sub) (sub +:+ post) = sub.
Proof.
  induction sub as [|c sub IH].
  - destruct post; reflexivity.
  - rewrite append_cons. simpl. rewrite IH. reflexivity.
Qed.

Lemma substring_append_skip (pre rest : string) (k : nat) :
  String.substring (String.length pre) k (pre +:+ rest) = String.substring 0 k rest.
Proof.
  induction pre as [|c pre IH]; [reflexivity|].
  rewrite append_cons. simpl. exact IH.
Qed.

Lemma substring_here_split (k : nat) (s : string) :
  String.length (String.substring 0 k s) = k →
  ∃ post : string, s = String.substring 0 k s +:+ post.
Proof.
  revert s. induction k as [|k IH]; intros s Hlen.
  - exists s. destruct s; reflexivity.
  - destruct s as [|c s]; [discriminate|]. simpl in Hlen |- *.
    destruct (IH s) as [post Hpost]; [lia|].
    exists post. rewrite append_cons. congruence.
Qed.

Lemma substring_split (m k : nat) (s : string) :
  String.length (String.substring m k s) = k →
  ∃ pre post : string, s = pre +:+ String.substring m k s +:+ post.
Proof.
  revert s. induction m as [|m IH]; intros s Hlen.
  - destruct (substring_here_split k s Hlen) as [post Hpost].
    exists "", post. exact Hpost.
  - destruct s as [|c s].
    + exists "", "". destruct k; reflexivity.
    + simpl in Hlen |- *. destruct (IH s Hlen) as (pre & post & Hs).
      exists (String c pre), post. rewrite append_cons. congruence.
Qed.

(** [includes] is the substring test of [String.prototype.includes]:
    for a word that is not empty it answers [true] exactly when the text is
    some text, the word, and some text. *)
Theorem includes_contains (sub s : string) :
  sub ≠ "" → includes sub s = true ↔ contains sub s.
Proof.
  intros Hsub. unfold includes, contains. split.
  - destruct (String.index 0 sub s) as [m|] eqn:Hindex; [intros _ | discriminate].
    apply String.index_correct1 in Hindex.
    destruct (substring_split m (String.length sub) s) as (pre & post & Hs).
    { rewrite Hindex. reflexivity. }
    exists pre, post. rewrite Hindex in Hs. exact Hs.
  - intros (pre & post & ->).
    destruct (String.index 0 sub (pre +:+ sub +:+ post)) eqn:Hindex; [reflexivity|].
    exfalso.
    apply (String.index_correct3 0 (String.length pre) sub _ Hindex Hsub); [lia|].
    rewrite substring_append_skip. apply substring_append_here.
Qed.

Lemma includes_contains_witness : contains "error" "an error occurred".
Proof.
  apply (includes_contains "error" "an error occurred"); [discriminate | reflexivity].
Defined.

(** X12.  The toast of a [log] message goes by the words in its text, and
    the words of failure come first: it is an error toast exactly when the
    text has [error] or [failed] in it, whatever else it has, and a
    success toast exactly when it has neither but has [success] or
    [completed]. *)
Theorem log_toast_kind_spec (text : string) :
  (log_toast_kind text = ToastError ↔
     contains "error" text ∨ contains "failed" text) ∧
  (log_toast_kind text = ToastSuccess ↔
     ¬ (contains "error" text ∨ contains "failed" text) ∧
     (contains "success" text ∨ contains "completed" text)) ∧
  (log_toast_kind text = ToastPlain ↔
     ¬ (contains "error" text ∨ contains "failed" text) ∧
     ¬ (contains "success" text ∨ contains "completed" text)).
Proof.
  assert (∀ word : string, word ≠ "" →
            if includes word text then contains word text
            else ¬ contains word text) as Hword.
  { intros word Hne. pose proof (includes_contains word text Hne) as Hiff.
    destruct (includes word text); [apply Hiff; reflexivity|].
    intros Hin. apply Hiff in Hin. discriminate. }
  pose proof (Hword "error" ltac:(discriminate)) as He.
  pose proof (Hword "failed" ltac:(discriminate)) as Hf.
  pose proof (Hword "success" ltac:(discriminate)) as Hs.
  pose proof (Hword "completed" ltac:(discriminate)) as Hc.
  clear Hword. unfold log_toast_kind.
  destruct (includes "error" text), (includes "failed" text),
    (includes "success" text), (includes "completed" text); simpl;
    repeat split; intros; try reflexivity; try discriminate; tauto.
Qed.

Lemma log_toast_kind_spec_witness :
  log_toast_kind "upload completed, thumbnail failed" = ToastError.
Proof.
  destruct (log_toast_kind_spec "upload completed, thumbnail failed") as ([_ Herror] & _).
  apply Herror. right. exists "upload completed, thumbnail ", "". reflexivity.
Defined.

(** ** The jobs the handler creates and the page lists *)






(** X15.  The page lists the first ten jobs of the store, and the handler
    puts a new job in front: a [starting] message for an unknown id makes
    its job the first one listed, followed by the nine that were listed
    first before, and never more than ten are listed. *)
Theorem new_job_is_listed_first (now : string) (m : WebSocketMessage) (h : Hook)
    (id : string) :
  type m = "ai_job" → job_id m = Some id → id ≠ "" →
  status m = Some "starting" →
  Some (VStr id) ∉ job_ids (Store.aiJobs (app h)) →
  AIGeneration.displayed_jobs (Store.aiJobs (app (handleMessage now m h))) =
    newJob now id (result m) :: take 9 (Store.aiJobs (app h)) ∧
  length (AIGeneration.displayed_jobs (Store.aiJobs (app (handleMessage now m h))))
    <= 10.
Proof.
  intros Htype Hid Hid' Hst Hnew.
  rewrite (handleMessage_ai_job now m h id "starting") by (assumption || discriminate).
  rewrite handle_ai_job_app. unfold ai_job_store.
  apply find_has_job_id_None in Hnew. rewrite Hnew. simpl.
  split; [reflexivity|].
  unfold AIGeneration.displayed_jobs. simpl. rewrite length_take. lia.
Qed.

Lemma new_job_is_listed_first_witness :
  AIGeneration.displayed_jobs
    (Store.aiJobs (app (handleMessage "2025-01-01T00:09:00.000Z"
                          (job_message "job-2" "starting") one_completed_job))) =
  newJob "2025-01-01T00:09:00.000Z" "job-2" None
    :: take 9 (Store.aiJobs (app one_completed_job)).
Proof.
  apply (new_job_is_listed_first "2025-01-01T00:09:00.000Z"
           (job_message "job-2" "starting") one_completed_job "job-2");
    [reflexivity | reflexivity | discriminate | reflexivity |].
  vm_compute. intros Hin. apply list_elem_of_singleton in Hin. discriminate.
Defined.

(** ** Colours *)

(** X16.  On the AI generation page and in the version grid the icon of a
    status and its badge always have the same colour, and each of the two
    components has exactly four colours. *)
Theorem icon_and_badge_agree (st : string) :
  colour_of (className (getStatusIcon st)) = colour_of (getStatusColor st) ∧
  colour_of (getStatusColor st) ∈ [Some "green"; Some "red"; Some "blue"; Some "yellow"] ∧
  colour_of (className (VideoVersionGrid.getStatusIcon st)) =
    colour_of (VideoVersionGrid.getStatusColor st) ∧
  colour_of (VideoVersionGrid.getStatusColor st)
    ∈ [Some "green"; Some "red"; Some "blue"; Some "gray"].
Proof.
  unfold getStatusIcon, getStatusColor,
    VideoVersionGrid.getStatusIcon, VideoVersionGrid.getStatusColor.
  destruct (String.eqb st "completed"), (String.eqb st "failed"),
    (String.eqb st "error"), (String.eqb st "generating");
    vm_compute; repeat split; set_solver.
Qed.

(** X17.  The version grid and the AI generation page give a status the
    same badge exactly when it is [completed], [failed] or [generating]:
    every other status, [error] included, is grey in the grid and red or
    yellow on the page. *)
Theorem grid_and_page_badges (st : string) :
  VideoVersionGrid.getStatusColor st = getStatusColor st ↔
  st = "completed" ∨ st = "failed" ∨ st = "generating".
Proof.
  unfold getStatusColor, VideoVersionGrid.getStatusColor.
  destruct (String.eqb_spec st "completed") as [->|Hc]; [tauto|].
  destruct (String.eqb_spec st "failed") as [->|Hf]; [tauto|].
  destruct (String.eqb_spec st "error") as [->|He];
    [simpl; split; [discriminate | intros [|[|]]; discriminate]|].
  simpl. destruct (String.eqb_spec st "generating") as [->|Hg]; [tauto|].
  split; [discriminate | tauto].
Qed.

Lemma grid_and_page_badges_witness :
  VideoVersionGrid.getStatusColor "failed" = getStatusColor "failed".
Proof. apply (grid_and_page_badges "failed"). right. left. reflexivity. Defined.

(** * Properties of the components *)

Lemma onSubmit_try_reset (outcome : fetch_outcome) (t : timed_toast) (reset : bool) :
  AIGeneration.onSubmit_try outcome = inr (t, reset) →
  t.1.1 = (if reset then ToastSuccess else ToastError).
Proof.
  unfold AIGeneration.onSubmit_try.
  destruct outcome as [e|ok status [result|e]]; try discriminate;
    repeat (destruct (_ && _); [discriminate|]); try discriminate.
  destruct (truthy_opt (result !! "success")); intros [= <- <-]; reflexivity.
Qed.

(** X18.  Every submission of the generation form ends with the flag
    [isGenerating] down and exactly one more toast, a success toast when
    the form was reset and an error toast when it was not.  A response
    that is not [ok] with status 401 is answered with the authentication
    message whatever its body says; a response outside the statuses the
    code names is judged by its body alone, also when it is not [ok]; and
    a [fetch] that fails with [Failed to fetch] is reported as a lost
    connection. *)
Theorem onSubmit_outcomes (outcome : fetch_outcome) (page : AIGeneration.Page) :
  let page' := AIGeneration.onSubmit_settle outcome (AIGeneration.onSubmit_begin page) in
  AIGeneration.isGenerating (AIGeneration.onSubmit_begin page) = true ∧
  AIGeneration.isGenerating page' = false ∧
  (∃ t : timed_toast,
     AIGeneration.page_toasts page' = t :: AIGeneration.page_toasts page ∧
     (t.1.1 = ToastSuccess ∧ AIGeneration.resets page' = S (AIGeneration.resets page) ∨
      t.1.1 = ToastError ∧ AIGeneration.resets page' = AIGeneration.resets page)) ∧
  (∀ body : http_body,
     outcome = Responds false 401 body →
     AIGeneration.page_toasts page' =
       (ToastError, VStr "Authentication failed. Please check your API key.", 7000%Z)
         :: AIGeneration.page_toasts page) ∧
  (∀ (ok : bool) (status : Z) (result : obj),
     outcome = Responds ok status (Body result) →
     ok = true ∨ (status ≠ 401 ∧ status ≠ 429 ∧ status < 500)%Z →
     AIGeneration.resets page' =
       (if truthy_opt (result !! "success")
        then S (AIGeneration.resets page) else AIGeneration.resets page)) ∧
  (outcome = FetchRejects (TypeError "Failed to fetch") →
   AIGeneration.page_toasts page' =
     (ToastError,
      VStr "Cannot connect to server. Please check your internet connection.",
      7000%Z) :: AIGeneration.page_toasts page).
Proof.
  intros page'. subst page'. unfold AIGeneration.onSubmit_settle.
  split; [reflexivity|]. split.
  { destruct (AIGeneration.onSubmit_try outcome) as [e|[t reset]]; reflexivity. }
  split.
  { destruct (AIGeneration.onSubmit_try outcome) as [e|[t reset]] eqn:Htry; simpl.
    - eexists. split; [reflexivity|]. right. split; reflexivity.
    - exists t. split; [reflexivity|].
      apply onSubmit_try_reset in Htry. destruct reset; [left | right]; auto. }
  split; [intros body ->; reflexivity|]. split.
  - intros ok status result -> Hstatus. unfold AIGeneration.onSubmit_try.
    assert (negb ok && (status =? 401)%Z = false
            ∧ negb ok && (status =? 429)%Z = false
            ∧ negb ok && (500 <=? status)%Z = false) as (-> & -> & ->).
    { destruct Hstatus as [->|(H1 & H2 & H3)]; [repeat split|].
      destruct ok; [repeat split|]. simpl. repeat split; lia. }
    destruct (truthy_opt (result !! "success")); reflexivity.
  - intros ->. reflexivity.
Qed.

Lemma onSubmit_outcomes_witness :
  let page := AIGeneration.mkPage false [] 0 [] in
  let outcome := Responds false 404 (Body {[ "success" := VBool true;
                                          "job_id" := VStr "job-9" ]}) in
  AIGeneration.resets
    (AIGeneration.onSubmit_settle outcome (AIGeneration.onSubmit_begin page)) = 1.
Proof.
  intros page outcome.
  destruct (onSubmit_outcomes outcome page) as (_ & _ & _ & _ & Hbody & _).
  rewrite (Hbody false 404%Z {[ "success" := VBool true; "job_id" := VStr "job-9" ]});
    [reflexivity | reflexivity | right; lia].
Defined.

(** X19.  An upload from the version grid marks its version as uploading
    while the request runs and always unmarks it when the request has
    ended, whatever the end; the marks of the other versions are not
    touched; the grid shows exactly one toast of its own; and
    [onUploadSuccess] is called
    at most once, only for a body that reports success and carries a URL
    and only when the grid was given the callback. *)
Theorem upload_settles (versionIndex : nat) (has_callback : bool)
    (outcome : fetch_outcome) (grid : VideoVersionGrid.Grid) :
  let started := VideoVersionGrid.upload_begin versionIndex grid in
  let grid' := VideoVersionGrid.upload_settle versionIndex has_callback outcome started in
  VideoVersionGrid.uploadingStates started !! versionIndex = Some true ∧
  VideoVersionGrid.uploadingStates grid' !! versionIndex = Some false ∧
  (∀ other : nat, other ≠ versionIndex →
     VideoVersionGrid.uploadingStates grid' !! other =
       VideoVersionGrid.uploadingStates grid !! other) ∧
  (∃ t : timed_toast,
     VideoVersionGrid.grid_toasts grid' = t :: VideoVersionGrid.grid_toasts grid) ∧
  (VideoVersionGrid.upload_calls grid' = VideoVersionGrid.upload_calls grid ∨
   ∃ (ok : bool) (status : Z) (result : obj) (url : value),
     outcome = Responds ok status (Body result) ∧
     truthy_opt (result !! "success") = true ∧
     result !! "youtube_url" = Some url ∧ truthy url = true ∧
     has_callback = true ∧
     VideoVersionGrid.upload_calls grid' =
       (versionIndex, url) :: VideoVersionGrid.upload_calls grid).
Proof.
  intros started grid'. subst started grid'.
  unfold VideoVersionGrid.upload_settle, VideoVersionGrid.upload_begin.
  split; [simpl; apply lookup_insert_eq|].
  split; [simpl; apply lookup_insert_eq|].
  split.
  { intros other Hother.
    destruct outcome as [e|ok status [result|e]]; simpl;
      try destruct (truthy_opt (result !! "success")); simpl;
      rewrite !lookup_insert_ne by congruence; reflexivity. }
  split.
  { destruct outcome as [e|ok status [result|e]]; simpl;
      try destruct (truthy_opt (result !! "success")); simpl; eauto. }
  destruct outcome as [e|ok status [result|e]]; simpl; try (left; reflexivity).
  destruct (truthy_opt (result !! "success")) eqn:Hsuccess; simpl;
    [|left; reflexivity].
  destruct (result !! "youtube_url") as [url|] eqn:Hurl; [|left; reflexivity].
  destruct (truthy url) eqn:Htruthy; [|left; reflexivity].
  destruct has_callback; [|left; reflexivity].
  right. exists ok, status, result, url. repeat split; assumption.
Qed.

Lemma upload_settles_witness :
  let grid := VideoVersionGrid.mkGrid {[ 1%nat := true ]} [] [] [] in
  VideoVersionGrid.uploadingStates
    (VideoVersionGrid.upload_settle 0 true (FetchRejects NotAnError)
       (VideoVersionGrid.upload_begin 0 grid)) !! 1%nat = Some true.
Proof.
  intros grid.
  destruct (upload_settles 0 true (FetchRejects NotAnError) grid)
    as (_ & _ & Hothers & _).
  rewrite (Hothers 1%nat); [reflexivity | discriminate].
Defined.




(** * Invariants of the connection *)

Lemma Forall_filter {A : Type} (P Q : A → Prop) `{∀ x, Decision (Q x)} (l : list A) :
  Forall P l → Forall P (filter Q l).
Proof.
  intros Hall. apply Forall_forall. intros x [_ Hx]%list_elem_of_filter.
  revert x Hx. apply Forall_forall. exact Hall.
Qed.

Lemma step_reconnect_invariant (h : Hook) (e : event) :
  reconnectAttempts h <= MAX_RECONNECT_ATTEMPTS →
  Forall (λ t : positive * Z, t.2 = RECONNECT_INTERVAL) (timers h) →
  reconnectAttempts (step h e) <= MAX_RECONNECT_ATTEMPTS ∧
  Forall (λ t : positive * Z, t.2 = RECONNECT_INTERVAL) (timers (step h e)).
Proof.
  intros Hattempts Htimers. destruct e as [| |handle|now m]; simpl step.
  - destruct (onopen_connection (socket_state OPEN h)) as (-> & _).
    split; [lia|]. unfold onopen. simpl.
    destruct (reconnectTimeout h); simpl; [apply Forall_filter|]; exact Htimers.
  - destruct (decide (reconnectAttempts h < MAX_RECONNECT_ATTEMPTS)) as [Hlt|Hge].
    + destruct (onclose_below (socket_state CLOSED h) Hlt) as (-> & _ & _ & -> & _).
      split; [exact Hlt|]. apply Forall_cons. split; [reflexivity | exact Htimers].
    + destruct (onclose_exhausted (socket_state CLOSED h)) as (-> & _ & -> & _);
        [simpl; lia|]. split; assumption.
  - destruct (timer_fires_connection handle h) as [-> _]. split; [exact Hattempts|].
    unfold timer_fires. destruct (decide _); simpl; [apply Forall_filter|]; exact Htimers.
  - destruct (handleMessage_connection now m h) as (-> & _ & -> & _). split; assumption.
Qed.

(** X22.  The reconnect counter never passes its maximum and every
    pending timer waits the reconnect interval: both hold after any
    sequence of events when they hold before it, as they do for a fresh
    hook. *)
Theorem reconnect_invariant (evs : list event) (h : Hook) :
  reconnectAttempts h <= MAX_RECONNECT_ATTEMPTS →
  Forall (λ t : positive * Z, t.2 = RECONNECT_INTERVAL) (timers h) →
  reconnectAttempts (run evs h) <= 10 ∧
  Forall (λ t : positive * Z, t.2 = 5000%Z) (timers (run evs h)).
Proof.
  revert h. induction evs as [|e evs IH]; intros h Hattempts Htimers.
  - split; assumption.
  - change (run (e :: evs) h) with (run evs (step h e)).
    destruct (step_reconnect_invariant h e Hattempts Htimers) as [Ha Ht].
    apply IH; assumption.
Qed.

Lemma reconnect_invariant_witness :
  reconnectAttempts (run (replicate 25 Close) initial_hook) <= 10.
Proof.
  apply (reconnect_invariant (replicate 25 Close) initial_hook).
  - vm_compute. lia.
  - constructor.
Defined.

